(** * icon_font_to_png: the icon table builder and the glyph compositor

    A shallow embedding of [icon_font_to_png/icon_font.py] (class [IconFont])
    and the properties of its stylesheet loader, its font scaling step and
    its export entry points.

    Conventions of the embedding.
    - Python semantics are those of Python 3 ([/] on integers is true
      division, [dict] keeps insertion order, [unichr] of [six] is [chr]).
    - Text is modelled by [string]; the character stored for an icon is its
      code point, a [Z].
    - An exception is a value of [py_exn]; a computation that can raise
      returns a [result].
    - The sentence that line 95 of the source leaves after the docstring
      of [scale_font] is read as the end of that docstring.
    - tinycss, PIL and the file system are outside the repository.  The
      stylesheet comes in already parsed (a list of rules); the font
      rasteriser and the file system are parameters of the development;
      images are kept symbolically, as the sequence of PIL operations that
      built them. *)

From Stdlib Require Import ZArith List Bool Ascii String Lia Sorted Permutation.
From Stdlib Require Import Floats.SpecFloat.
Import ListNotations.

Local Open Scope string_scope.
Local Open Scope Z_scope.

(** ** Exceptions and results *)

Inductive py_exn : Type :=
| TypeError | NameError | KeyError | ValueError | OverflowError
| ZeroDivisionError | AttributeError | OSError.

Inductive result (A : Type) : Type :=
| Ok (a : A)
| Raise (e : py_exn).

Arguments Ok {A} a.
Arguments Raise {A} e.

Definition rbind {A B} (r : result A) (k : A -> result B) : result B :=
  match r with
  | Ok a => k a
  | Raise e => Raise e
  end.

Declare Scope result_scope.
Delimit Scope result_scope with result.
Notation "x <- c ;; k" := (rbind c (fun x => k))
  (at level 61, c at next level, right associativity) : result_scope.
Notation "' p <- c ;; k" := (rbind c (fun x => let 'p := x in k))
  (at level 61, p pattern, c at next level, right associativity) : result_scope.

(** ** Python strings *)

Module PyStr.

Definition newline : ascii := "010"%char.
Definition dquote : ascii := "034"%char.
Definition squote : ascii := "039"%char.

(** [s[n:]] *)
Fixpoint drop (n : nat) (s : string) : string :=
  match n, s with
  | O, _ => s
  | S _, EmptyString => EmptyString
  | S n', String _ s' => drop n' s'
  end.

(** [s[:n]] *)
Fixpoint take (n : nat) (s : string) : string :=
  match n, s with
  | O, _ => EmptyString
  | S _, EmptyString => EmptyString
  | S n', String c s' => String c (take n' s')
  end.

(** [s[1:-1]] *)
Definition strip_ends (s : string) : string :=
  take (String.length s - 2) (drop 1 s).

(** [os.path.commonprefix((a, b))]: the longest string that starts both. *)
Fixpoint commonprefix (a b : string) : string :=
  match a, b with
  | String x a', String y b' =>
      if Ascii.eqb x y then String x (commonprefix a' b') else EmptyString
  | _, _ => EmptyString
  end.

End PyStr.

(** ** The two regular expressions of [load_css] *)

Module Re.
Import PyStr.

(** [is_icon] is a dot, a greedy group of any characters, the text
    [:before] and an optional comma.  The group cannot take a newline, and
    backtracks to the last place of its line where [:before] starts:
    [last_before s] is that place in [s], the text after the dot. *)
Fixpoint last_before (s : string) : option nat :=
  match s with
  | EmptyString => None
  | String c s' =>
      if Ascii.eqb c newline then None
      else match last_before s' with
           | Some j => Some (S j)
           | None => if String.prefix ":before" s then Some O else None
           end
  end.

(** One match of [is_icon] that starts at the head of [s]: the captured
    group and the number of characters matched. *)
Definition match_here (s : string) : option (string * nat) :=
  match s with
  | String c rest =>
      if Ascii.eqb c "."%char then
        match last_before rest with
        | Some j =>
            let comma :=
              match drop (j + 7) rest with
              | String d _ => if Ascii.eqb d ","%char then 1%nat else 0%nat
              | EmptyString => 0%nat
              end in
            Some (take j rest, (1 + j + 7 + comma)%nat)
        | None => None
        end
      else None
  | EmptyString => None
  end.

(** [is_icon.match(selector)] *)
Definition is_icon_match (selector : string) : bool :=
  match match_here selector with Some _ => true | None => false end.

(** [is_icon.finditer(selector)], as the list of the captured groups.
    [skip] counts the characters still covered by the previous match. *)
Fixpoint scan (skip : nat) (s : string) : list string :=
  match s with
  | EmptyString => []
  | String _ s' =>
      match skip with
      | S k => scan k s'
      | O =>
          match match_here s with
          | Some (g, len) => g :: scan (len - 1) s'
          | None => scan 0 s'
          end
      end
  end.

Definition is_icon_finditer (selector : string) : list string :=
  scan 0 selector.

Definition is_quote (c : ascii) : bool :=
  Ascii.eqb c squote || Ascii.eqb c dquote.

(** The rest of the pattern after the opening quote: any characters of one
    line, a quote character, and the end of the text; the end anchor also
    matches before a final newline. *)
Fixpoint closes (s : string) : bool :=
  match s with
  | EmptyString => false
  | String c s' =>
      (is_quote c && (String.eqb s' "" || String.eqb s' (String newline "")))
      || (negb (Ascii.eqb c newline) && closes s')
  end.

(** The [re.match] test of the comment [Strip quotation marks]: the value
    starts and ends with a quote character (single or double). *)
Definition quoted (val : string) : bool :=
  match val with
  | String c rest => is_quote c && closes rest
  | EmptyString => false
  end.

(** No newline in [s]. *)
Fixpoint one_line (s : string) : bool :=
  match s with
  | EmptyString => true
  | String c s' => negb (Ascii.eqb c newline) && one_line s'
  end.

End Re.

(** ** Dictionaries

    A [dict] in insertion order: a list of entries with distinct keys. *)

Module Dict.

Definition dict (V : Type) : Type := list (string * V).

Definition keys {V} (d : dict V) : list string := map fst d.

(** [d[k] = v]: a key already there keeps its place. *)
Fixpoint set {V} (d : dict V) (k : string) (v : V) : dict V :=
  match d with
  | [] => [(k, v)]
  | (k', v') :: d' =>
      if String.eqb k' k then (k', v) :: d' else (k', v') :: set d' k v
  end.

Fixpoint get {V} (d : dict V) (k : string) : option V :=
  match d with
  | [] => None
  | (k', v') :: d' => if String.eqb k' k then Some v' else get d' k
  end.

(** [OrderedDict(items)] *)
Definition of_items {V} (items : list (string * V)) : dict V :=
  fold_left (fun d kv => set d (fst kv) (snd kv)) items [].

(** [sorted(items, key=lambda t: t[0])]: the stable ascending order of the
    keys, by insertion. *)
Fixpoint insert {V} (x : string * V) (l : list (string * V)) :=
  match l with
  | [] => [x]
  | y :: l' =>
      if String.leb (fst x) (fst y) then x :: l else y :: insert x l'
  end.

Fixpoint sorted {V} (l : list (string * V)) : list (string * V) :=
  match l with
  | [] => []
  | x :: l' => insert x (sorted l')
  end.

(** The assignments [acc[g k] = v] for the entries [(k, v)] of [l]. *)
Definition assign_all {V} (g : string -> string) (acc l : dict V) : dict V :=
  fold_left (fun a kv => set a (g (fst kv)) (snd kv)) l acc.

Definition le_key {V} (a b : string * V) : Prop :=
  String.leb (fst a) (fst b) = true.

End Dict.

(** ** The icon table builder: [IconFont.load_css] *)

(** A declaration of a rule: [declaration.name] and
    [declaration.value.as_css()]. *)
Record declaration : Type := Decl {
  decl_name : string;
  decl_value : string
}.

(** A rule of [stylesheet.rules]: a rule set with [rule.selector.as_css()]
    and its declarations, or an at-rule, which has no token-list selector. *)
Inductive rule : Type :=
| RuleSet (selector : string) (declarations : list declaration)
| AtRule.

Definition stylesheet : Type := list rule.

(** The rule carries a [content] declaration. *)
Definition has_content (decls : list declaration) : bool :=
  existsb (fun d => String.eqb (decl_name d) "content") decls.

(** A character of the icon font, by code point. *)
Definition uchar : Type := Z.

(** [unichr(n)] *)
Definition unichr (n : Z) : result uchar :=
  if (0 <=? n) && (n <=? 1114111) then Ok n
  else if (-2147483648 <=? n) && (n <=? 2147483647) then Raise ValueError
  else Raise OverflowError.

Section LoadCss.

(** [int(s, 16)], the builtin: [None] when it raises [ValueError]. *)
Variable int16 : string -> option Z.

Definition py_int16 (s : string) : result Z :=
  match int16 s with
  | Some n => Ok n
  | None => Raise ValueError
  end.

Import Dict.

(** The body of [for declaration in rule.declarations] for one icon name. *)
Fixpoint store_content (name : string) (decls : list declaration)
    (icons : dict uchar) : result (dict uchar) :=
  match decls with
  | [] => Ok icons
  | d :: decls' =>
      if String.eqb (decl_name d) "content" then
        let val := decl_value d in
        let val := if Re.quoted val then PyStr.strip_ends val else val in
        (n <- py_int16 (PyStr.drop 1 val) ;;
         c <- unichr n ;;
         store_content name decls' (set icons name c))%result
      else store_content name decls' icons
  end.

(** The body of [for match in is_icon.finditer(selector)]. *)
Fixpoint store_matches (names : list string) (decls : list declaration)
    (icons : dict uchar) : result (dict uchar) :=
  match names with
  | [] => Ok icons
  | name :: names' =>
      (icons' <- store_content name decls icons ;;
       store_matches names' decls icons')%result
  end.

(** The loop state: [icons] and [common_prefix] ([None] at first). *)
Definition css_state : Type := (dict uchar * option string)%type.

(** One turn of [for rule in stylesheet.rules]. *)
Definition load_rule (st : css_state) (r : rule) : result css_state :=
  match r with
  | AtRule => Raise AttributeError
  | RuleSet selector decls =>
      if negb (Re.is_icon_match selector) then Ok st
      else
        let '(icons, common_prefix) := st in
        let common_prefix :=
          match common_prefix with
          | None => PyStr.drop 1 selector
          | Some p => PyStr.commonprefix p (PyStr.drop 1 selector)
          end in
        (icons' <- store_matches (Re.is_icon_finditer selector) decls icons ;;
         Ok (icons', Some common_prefix))%result
  end.

Fixpoint load_rules (st : css_state) (rules : stylesheet) : result css_state :=
  match rules with
  | [] => Ok st
  | r :: rules' =>
      (st' <- load_rule st r ;; load_rules st' rules')%result
  end.

(** [for name in icons.keys(): non_prefixed_icons[name[len(p):]] = icons[name]],
    run over the entries: [icons[name]] is the value of the entry of [name]. *)
Definition remove_prefix (p : string) (icons : dict uchar) : dict uchar :=
  fold_left
    (fun acc kv => set acc (PyStr.drop (String.length p) (fst kv)) (snd kv))
    icons [].

Definition load_css (keep_prefix : bool) (css : stylesheet)
    : result (dict uchar * string) :=
  (st <- load_rules ([], None) css ;;
   let '(icons, common_prefix) := st in
   let common_prefix :=
     match common_prefix with Some p => p | None => "" end in
   let icons :=
     if negb keep_prefix && (0 <? Z.of_nat (String.length common_prefix))
     then remove_prefix common_prefix icons
     else icons in
   Ok (of_items (sorted icons), common_prefix))%result.

End LoadCss.

(** A reading of [int(s, 16)] on plain hexadecimal digits, for examples. *)
Module Hex.

Definition digit (c : ascii) : option Z :=
  let n := Z.of_N (N_of_ascii c) in
  if (48 <=? n) && (n <=? 57) then Some (n - 48)
  else if (97 <=? n) && (n <=? 102) then Some (n - 87)
  else if (65 <=? n) && (n <=? 70) then Some (n - 55)
  else None.

Fixpoint value (acc : Z) (s : string) : option Z :=
  match s with
  | EmptyString => Some acc
  | String c s' =>
      match digit c with
      | Some d => value (16 * acc + d) s'
      | None => None
      end
  end.

Definition int16 (s : string) : option Z :=
  match s with
  | EmptyString => None
  | _ => value 0 s
  end.

End Hex.

(** ** Python numbers

    [float] is IEEE 754 binary64, by the specification of the standard
    library ([spec_float] at precision 53); an [int] is a [Z]. *)

Module PyNum.

Definition float : Type := spec_float.

Definition fmul : float -> float -> float := SFmul 53 1024.
Definition fdiv : float -> float -> float := SFdiv 53 1024.

(** [float(n)]: the nearest float, [OverflowError] beyond the range. *)
Definition float_of_int (n : Z) : result float :=
  match binary_normalize 53 1024 n 0 false with
  | S754_infinity _ => Raise OverflowError
  | f => Ok f
  end.

Definition raw (n : Z) : float :=
  match n with
  | Z0 => S754_zero false
  | Zpos m => S754_finite false m 0
  | Zneg m => S754_finite true m 0
  end.

(** [a / b] on two [int]s: the correctly rounded quotient. *)
Definition int_truediv (a b : Z) : result float :=
  if b =? 0 then Raise ZeroDivisionError
  else if a =? 0 then Ok (S754_zero (b <? 0))
  else match fdiv (raw a) (raw b) with
       | S754_infinity _ => Raise OverflowError
       | f => Ok f
       end.

(** [int(x)] on a float: towards zero. *)
Definition int_of_float (x : float) : result Z :=
  match x with
  | S754_zero _ => Ok 0
  | S754_nan => Raise ValueError
  | S754_infinity _ => Raise OverflowError
  | S754_finite s m e =>
      let a := if 0 <=? e then Zpos m * 2 ^ e else Zpos m / 2 ^ (- e) in
      Ok (if s then - a else a)
  end.

(** The mathematical floor of a finite float. *)
Definition floor (x : float) : option Z :=
  match x with
  | S754_zero _ => Some 0
  | S754_finite s m e => Some (Z.shiftl (if s then Zneg m else Zpos m) e)
  | _ => None
  end.

(** [0 <= x], for a float that is a number. *)
Definition nonneg (x : float) : bool :=
  match x with
  | S754_zero _ => true
  | S754_finite s _ _ => negb s
  | S754_infinity s => negb s
  | S754_nan => false
  end.

(** A float that is no negative number: a zero, a number whose sign bit
    is clear, or no number at all. *)
Definition not_negative (x : float) : Prop :=
  match x with
  | S754_infinity s | S754_finite s _ _ => s = false
  | S754_zero _ | S754_nan => True
  end.

(** The same float, bit for bit. *)
Definition same (a b : float) : bool :=
  match a, b with
  | S754_zero s, S754_zero s' => Bool.eqb s s'
  | S754_infinity s, S754_infinity s' => Bool.eqb s s'
  | S754_nan, S754_nan => true
  | S754_finite s m e, S754_finite s' m' e' =>
      Bool.eqb s s' && Pos.eqb m m' && Z.eqb e e'
  | _, _ => false
  end.

(** The literals [1.0], [2.0] and [0.99]. *)
Definition f_1 : float := Eval vm_compute in binary_normalize 53 1024 1 0 false.
Definition f_2 : float := Eval vm_compute in binary_normalize 53 1024 2 0 false.
Definition f_0_99 : float := Eval vm_compute in fdiv (raw 99) (raw 100).

(** A value that is an [int] or a [float]. *)
Inductive num : Type :=
| PInt (n : Z)
| PFloat (x : float).

Definition to_float (a : num) : result float :=
  match a with
  | PInt n => float_of_int n
  | PFloat x => Ok x
  end.

(** [a * b] *)
Definition mul (a b : num) : result num :=
  match a, b with
  | PInt m, PInt n => Ok (PInt (m * n))
  | _, _ =>
      (x <- to_float a ;; y <- to_float b ;; Ok (PFloat (fmul x y)))%result
  end.

(** [int(a)] *)
Definition to_int (a : num) : result Z :=
  match a with
  | PInt n => Ok n
  | PFloat x => int_of_float x
  end.

End PyNum.

(** ** PIL objects and the world

    A font is the file and the pixel size it was loaded with.  An image is
    the term of the PIL calls that built it. *)

Record font : Type := Font {
  font_file : string;
  font_px : Z
}.

Inductive color : Type :=
| ColorName (name : string)
| RGBA (r g b a : Z)
| Gray (v : Z).

Definition box : Type := (Z * Z * Z * Z)%type.

Inductive image : Type :=
| New (mode : string) (w h : Z) (c : color)
| Text (im : image) (x y : PyNum.float) (text : uchar) (f : font) (fill : Z)
| PutAlpha (im mask : image)
| Crop (im : image) (b : box)
| Paste (im src : image) (x y : Z)
| Resize (im : image) (w h : Z).

(** What a call does outside the program. *)
Inductive event : Type :=
| EvTruetype (file : string) (px : Z)
| EvTextsize (text : uchar) (f : font)
| EvMakedirs (dir : string)
| EvSave (path : string) (im : image).

Definition world : Type := list event.

(** A computation: from the events so far to a result and the events after
    it, or [None] when the fuel given to a loop ran out. *)
Definition M (A : Type) : Type := world -> option (result A * world).

Definition ret {A} (a : A) : M A := fun w => Some (Ok a, w).
Definition raise {A} (e : py_exn) : M A := fun w => Some (Raise e, w).
Definition lift {A} (r : result A) : M A := fun w => Some (r, w).
Definition emit (ev : event) : M unit := fun w => Some (Ok tt, (w ++ [ev])%list).
Definition out_of_fuel {A} : M A := fun _ => None.

Definition bind {A B} (m : M A) (k : A -> M B) : M B :=
  fun w =>
    match m w with
    | None => None
    | Some (Ok a, w') => k a w'
    | Some (Raise e, w') => Some (Raise e, w')
    end.

Declare Scope py_scope.
Delimit Scope py_scope with py.
Notation "x <- c ;; k" := (bind c (fun x => k))
  (at level 61, c at next level, right associativity) : py_scope.
Notation "' p <- c ;; k" := (bind c (fun x => let 'p := x in k))
  (at level 61, p pattern, c at next level, right associativity) : py_scope.

(** The [scale] argument: ['auto'] or a number, read by [float(scale)]. *)
Inductive scale_arg : Type :=
| Auto
| Fixed (f : PyNum.float).

(** The fields of an [IconFont]. *)
Record IconFont : Type := {
  css_file : string;
  ttf_file : string;
  keep_prefix : bool;
  css_icons : Dict.dict uchar;
  common_prefix : string
}.

(** [os.path.join(a, b)] *)
Definition path_join (a b : string) : string :=
  if String.prefix "/" b then b
  else if String.eqb a "" then b
  else if Ascii.eqb
            (match String.get (String.length a - 1) a with
             | Some c => c | None => " "%char end) "/"%char
       then a ++ b
       else a ++ "/" ++ b.

(** The file system, as the program meets it.  What exists and what a call
    refuses depend on the state the disk is in, which the events so far
    stand for: [os.makedirs] creates the parents of its directory, and an
    existing path, a missing permission, a full disk or an extension that
    PIL does not know make [os.makedirs] or [Image.save] raise. *)
Record file_system : Type := {
  fs_exists : world -> string -> bool;
  fs_makedirs_error : world -> string -> option py_exn;
  fs_save_error : world -> string -> image -> option py_exn
}.

Section Compositor.

(** The font rasteriser and the file system. *)
Variable truetype_error : string -> Z -> option py_exn.
Variable textsize : uchar -> font -> Z * Z.
Variable getbbox : image -> option box.
Variable fs : file_system.

Variable self : IconFont.

(** [ImageFont.truetype(file, px)] *)
Definition ImageFont_truetype (file : string) (px : Z) : M font :=
  (_ <- emit (EvTruetype file px) ;;
   match truetype_error file px with
   | Some e => raise e
   | None => ret (Font file px)
   end)%py.

(** [draw.textsize(text, font=font)] *)
Definition draw_textsize (text : uchar) (f : font) : M (Z * Z) :=
  (_ <- emit (EvTextsize text f) ;; ret (textsize text f))%py.

(** [Image.new(mode, (w, h), c)]; PIL refuses a negative width or height. *)
Definition Image_new (mode : string) (w h : Z) (c : color) : M image :=
  if (w <? 0) || (h <? 0) then raise ValueError else ret (New mode w h c).

(** [self.css_icons[icon]] *)
Definition icon_char (icon : string) : M uchar :=
  match Dict.get (css_icons self) icon with
  | Some c => ret c
  | None => raise KeyError
  end.

(** The [while True] of [scale_font], with its variables [iteration],
    [factor] and [font]; [fuel] bounds the passes that the model runs. *)
Fixpoint auto_loop (fuel : nat) (icon : string) (size : Z)
    (iteration : Z) (factor : PyNum.num) (fnt : font)
    : M (font * Z * Z) :=
  match fuel with
  | O => out_of_fuel
  | S fuel' =>
      (c <- icon_char icon ;;
       ' (width, height) <- draw_textsize c fnt ;;
       let dim := Z.max width height in
       if dim >? size then
         q <- lift (PyNum.int_truediv (size * size) dim) ;;
         x <- lift (PyNum.mul (PyNum.PFloat q) factor) ;;
         px <- lift (PyNum.to_int x) ;;
         fnt' <- ImageFont_truetype (ttf_file self) px ;;
         let iteration := iteration + 1 in
         factor' <- (if iteration mod 2 =? 0
                     then lift (PyNum.mul factor (PyNum.PFloat PyNum.f_0_99))
                     else ret factor) ;;
         auto_loop fuel' icon size iteration factor' fnt'
       else ret (fnt, width, height))%py
  end.

(** [int(size * scale_factor)] *)
Definition pixel_size (size : Z) (scale_factor : PyNum.num) : result Z :=
  (x <- PyNum.mul (PyNum.PInt size) scale_factor ;; PyNum.to_int x)%result.

Definition scale_font (fuel : nat) (ttf icon : string) (size : Z)
    (scale : scale_arg) : M (font * Z * Z * option box) :=
  let scale_factor :=
    match scale with
    | Auto => PyNum.PInt 1
    | Fixed f => PyNum.PFloat f
    end in
  (im <- Image_new "RGBA" size size (RGBA 0 0 0 0) ;;
   px <- lift (pixel_size size scale_factor) ;;
   fnt <- ImageFont_truetype ttf px ;;
   c <- icon_char icon ;;
   ' (width, height) <- draw_textsize c fnt ;;
   ' (fnt, width, height) <-
      match scale with
      | Auto => auto_loop fuel icon size 0 (PyNum.PInt 1) fnt
      | Fixed _ => ret (fnt, width, height)
      end ;;
   ret (fnt, width, height, getbbox im))%py.

(** ** The export entry points *)

(** A parameter without default that the call leaves out: the call raises
    [TypeError] before the body runs. *)
Definition required {A} (arg : option A) : M A :=
  match arg with
  | Some a => ret a
  | None => raise TypeError
  end.

(** A name read in a function that never binds it, and that the module
    does not define either. *)
Definition unbound {A} (name : string) : M A := raise NameError.

(** [bbox[i]] *)
Definition subscript (b : option box) (i : nat) : M Z :=
  match b with
  | None => raise TypeError
  | Some (x0, y0, x1, y1) => ret (nth i [x0; y0; x1; y1] 0)
  end.

(** [float(n) / 2] *)
Definition float_half (n : Z) : M PyNum.float :=
  (x <- lift (PyNum.float_of_int n) ;; ret (PyNum.fdiv x PyNum.f_2))%py.

(** [int(n / 2)] *)
Definition int_half (n : Z) : M Z :=
  (q <- lift (PyNum.int_truediv n 2) ;; lift (PyNum.to_int (PyNum.PFloat q)))%py.

(** [draw_mask.text((float(size - width) / 2, float(size - height) / 2),
    self.css_icons[icon], font=font, fill=255)] *)
Definition draw_centered (mask : image) (size width height : Z)
    (icon : string) (fnt : font) : M image :=
  (x <- float_half (size - width) ;;
   y <- float_half (size - height) ;;
   c <- icon_char icon ;;
   ret (Text mask x y c fnt 255))%py.

(** [os.path.exists(dir)], on the disk as the events of [w] left it. *)
Definition os_path_exists (dir : string) : M bool :=
  fun w => Some (Ok (fs_exists fs w dir), w).

(** [os.makedirs(dir)] *)
Definition os_makedirs (dir : string) : M unit :=
  fun w =>
    match fs_makedirs_error fs w dir with
    | Some e => Some (Raise e, w)
    | None => Some (Ok tt, (w ++ [EvMakedirs dir])%list)
    end.

(** [im.save(path)] *)
Definition Image_save (im : image) (path : string) : M unit :=
  fun w =>
    match fs_save_error fs w path im with
    | Some e => Some (Raise e, w)
    | None => Some (Ok tt, (w ++ [EvSave path im])%list)
    end.

(** The lines from [Make sure export directory exists] to the end, the
    same in both export functions. *)
Definition save_png (out_image : image) (icon : string)
    (filename : option string) (export_dir : string) : M unit :=
  (there <- os_path_exists export_dir ;;
   _ <- (if negb there then os_makedirs export_dir else ret tt) ;;
   let filename :=
     match filename with
     | None => icon ++ ".png"
     | Some f => if String.eqb f "" then icon ++ ".png" else f
     end in
   Image_save out_image (path_join export_dir filename))%py.

Definition export_icon_with_wrapper (fuel : nat) (icon : string) (size : Z)
    (wrapper_icon : option string) (color_ : string) (scale : scale_arg)
    (filename : option string) (export_dir : string) : M unit :=
  (wrapper_icon <- required wrapper_icon ;;
   let scale_factor :=
     match scale with
     | Auto => PyNum.f_1
     | Fixed f => f
     end in
   let full_scale := scale_factor in
   let scale_factor := PyNum.fdiv scale_factor PyNum.f_2 in
   ' (fnt, width, height, bbox) <-
      scale_font fuel (ttf_file self) icon size (Fixed scale_factor) ;;
   ' (fnt2, width2, height2, bbox2) <-
      scale_font fuel (ttf_file self) wrapper_icon size (Fixed full_scale) ;;
   image_mask <- Image_new "L" size size (Gray 0) ;;
   image_mask <- draw_centered image_mask size width2 height2 wrapper_icon fnt2 ;;
   image_mask <- draw_centered image_mask size width height icon fnt ;;
   icon_image <- Image_new "RGBA" size size (ColorName color_) ;;
   let icon_image := PutAlpha icon_image image_mask in
   let icon_image :=
     match bbox2 with
     | Some b => Crop icon_image b
     | None => icon_image
     end in
   b2 <- subscript bbox 2 ;; b0 <- subscript bbox 0 ;;
   border_w <- int_half (size - (b2 - b0)) ;;
   b3 <- subscript bbox 3 ;; b1 <- subscript bbox 1 ;;
   border_h <- int_half (size - (b3 - b1)) ;;
   out_image <- Image_new "RGBA" size size (RGBA 0 0 0 0) ;;
   let out_image := Paste out_image icon_image border_w border_h in
   org_size <- unbound "org_size" ;;
   let out_image :=
     if negb (org_size =? size)
     then Resize out_image org_size org_size
     else out_image in
   save_png out_image icon filename export_dir)%py.

Definition export_icon (fuel : nat) (icon : string) (size : Z)
    (color_ : string) (scale : scale_arg) (filename : option string)
    (export_dir : string) (wrapper_icon : string) : M unit :=
  if String.eqb wrapper_icon "" then
    export_icon_with_wrapper fuel icon size None
      color_ scale filename export_dir
  else
    export_icon_with_wrapper fuel icon size (Some wrapper_icon)
      color_ scale filename export_dir.

Definition export_icon_no_wrapper (fuel : nat) (icon : string) (size : Z)
    (color_ : string) (scale : scale_arg) (filename : option string)
    (export_dir : string) : M unit :=
  let org_size := size in
  let size := Z.max 150 size in
  (ttf <- unbound "ttf" ;;
   ' (fnt, width, height, bbox) <- scale_font fuel ttf icon size scale ;;
   image_mask <- Image_new "L" size size (Gray 0) ;;
   image_mask <- draw_centered image_mask size width height icon fnt ;;
   icon_image <- Image_new "RGBA" size size (ColorName color_) ;;
   let icon_image := PutAlpha icon_image image_mask in
   let icon_image :=
     match bbox with
     | Some b => Crop icon_image b
     | None => icon_image
     end in
   b2 <- subscript bbox 2 ;; b0 <- subscript bbox 0 ;;
   border_w <- int_half (size - (b2 - b0)) ;;
   b3 <- subscript bbox 3 ;; b1 <- subscript bbox 1 ;;
   border_h <- int_half (size - (b3 - b1)) ;;
   out_image <- Image_new "RGBA" size size (RGBA 0 0 0 0) ;;
   let out_image := Paste out_image icon_image border_w border_h in
   let out_image :=
     if negb (org_size =? size)
     then Resize out_image org_size org_size
     else out_image in
   save_png out_image icon filename export_dir)%py.

End Compositor.

(** [IconFont(css_file, ttf_file, keep_prefix)], on the parsed stylesheet. *)
Definition IconFont_init (int16 : string -> option Z) (css : stylesheet)
    (css_path ttf_path : string) (keep : bool) : result IconFont :=
  (' (icons, p) <- load_css int16 keep css ;;
   Ok {| css_file := css_path; ttf_file := ttf_path; keep_prefix := keep;
         css_icons := icons; common_prefix := p |})%result.

(** The files an execution wrote and the directories it made. *)
Definition files_written (w : world) : list string :=
  flat_map (fun ev => match ev with EvSave p _ => [p] | _ => [] end) w.

Definition dirs_made (w : world) : list string :=
  flat_map (fun ev => match ev with EvMakedirs d => [d] | _ => [] end) w.

Definition fonts_loaded (w : world) : list (string * Z) :=
  flat_map (fun ev => match ev with EvTruetype f px => [(f, px)] | _ => [] end) w.

(** ** Specifications of computations *)

(** [m] ends whatever the fuel: it appends some events [evs] to those it
    started from and gives a result [r], with [Q r evs]. *)
Definition emits {A} (m : M A) (Q : result A -> list event -> Prop) : Prop :=
  forall w, exists r evs, m w = Some (r, (w ++ evs)%list) /\ Q r evs.

(** [m] ends and does nothing outside the program. *)
Definition pure {A} (m : M A) : Prop :=
  forall w, exists r, m w = Some (r, w).

(** [m] raises, and does nothing outside the program. *)
Definition always_raises {A} (m : M A) : Prop :=
  forall w, exists e, m w = Some (Raise e, w).

(** [m], when it ends, has appended some events [evs] and given a result
    [r] with [Q r evs]. *)
Definition appends {A} (m : M A) (Q : result A -> list event -> Prop) : Prop :=
  forall w r w', m w = Some (r, w') ->
    exists evs, w' = (w ++ evs)%list /\ Q r evs.

(** ** Readings of a stylesheet *)

(** The selectors of the icon rules, without their first character, in the
    order of the rules: the texts that [load_css] takes the common prefix
    of. *)
Fixpoint icon_selectors (css : stylesheet) : list string :=
  match css with
  | [] => []
  | RuleSet selector _ :: css' =>
      if Re.is_icon_match selector
      then PyStr.drop 1 selector :: icon_selectors css'
      else icon_selectors css'
  | AtRule :: css' => icon_selectors css'
  end.

(** The text that [load_css] hands to [int(..., 16)] for a declaration value
    [v]: [v] without its two ends when it is quoted, then without its first
    character. *)
Definition content_digits (v : string) : string :=
  PyStr.drop 1 (if Re.quoted v then PyStr.strip_ends v else v).

(** [cp], the running [common_prefix] of [load_css], is the longest text
    that starts every one of [sels]; it is [None] as long as there is none. *)
Definition longest_common_prefix (cp : option string) (sels : list string)
    : Prop :=
  match cp with
  | None => sels = []
  | Some p =>
      sels <> [] /\
      (forall s, In s sels -> String.prefix p s = true) /\
      (forall q, (forall s, In s sels -> String.prefix q s = true) ->
                 String.prefix q p = true)
  end.

(** An icon name of the stylesheet: a group that [is_icon] captures in the
    selector of an icon rule that carries a [content] declaration. *)
Definition icon_name (css : stylesheet) (k : string) : Prop :=
  exists selector decls,
    In (RuleSet selector decls) css /\
    Re.is_icon_match selector = true /\
    In k (Re.is_icon_finditer selector) /\
    has_content decls = true.

(** A code point of Unicode. *)
Definition valid_code_point (v : uchar) : Prop := 0 <= v <= 1114111.

Definition all_valid (d : Dict.dict uchar) : Prop :=
  forall k v, In (k, v) d -> valid_code_point v.

(** ** The damping factor of the loop *)

(** With the quotient [q = size * size / dim] of a pass, the damping factor
    [x] gives a pixel size: [int(q * x)] does not raise. *)
Definition renders (q x : PyNum.float) : bool :=
  match PyNum.int_of_float (PyNum.fmul q x) with
  | Ok _ => true
  | Raise _ => false
  end.

(** From the damping factor [x] on, every factor gives a pixel size, and
    after [n] more multiplications by [0.99] the factor no longer changes. *)
Fixpoint damps (q : PyNum.float) (n : nat) (x : PyNum.float) : bool :=
  renders q x &&
  match n with
  | O => PyNum.same (PyNum.fmul x PyNum.f_0_99) x
  | S n' => damps q n' (PyNum.fmul x PyNum.f_0_99)
  end.

(** ** Concrete data for the examples *)

Module Demo.

(** A declaration value between double quotes. *)
Definition css_quote (s : string) : string :=
  String PyStr.dquote (s ++ String PyStr.dquote "").

Definition home_user : stylesheet :=
  [ RuleSet ".icon-user:before" [Decl "content" (css_quote "\f102")];
    RuleSet ".other" [Decl "color" "red"];
    RuleSet ".icon-home:before" [Decl "content" (css_quote "\f101")] ].

Definition only_home : stylesheet :=
  [ RuleSet ".icon-home:before" [Decl "content" (css_quote "\f101")] ].

Definition doubled : stylesheet :=
  [ RuleSet ".aab:before" [Decl "content" (css_quote "\f101")];
    RuleSet ".ab:before" [Decl "content" (css_quote "\f102")] ].

Definition icon_font : IconFont :=
  {| css_file := "icons.css"; ttf_file := "icons.ttf"; keep_prefix := false;
     css_icons := [("home", 61697); ("user", 61698)];
     common_prefix := "icon-" |}.

(** A rasteriser that loads every size. *)
Definition loads (file : string) (px : Z) : option py_exn := None.

(** A rasteriser that refuses a pixel size that is not positive. *)
Definition loads_positive (file : string) (px : Z) : option py_exn :=
  if px <=? 0 then Some ValueError else None.

(** A glyph as wide as the pixel size and ten pixels taller. *)
Definition tall (c : uchar) (f : font) : Z * Z := (font_px f, font_px f + 10).

(** A glyph of 151 by 151 pixels at every pixel size. *)
Definition stuck (c : uchar) (f : font) : Z * Z := (151, 151).

(** [getbbox] of PIL on a canvas nothing was drawn on. *)
Definition blank_bbox (im : image) : option box := None.

Definition some_bbox (im : image) : option box := Some (10, 10, 140, 140).

(** A disk on which no path exists and no call is refused. *)
Definition no_dir : file_system :=
  {| fs_exists := fun _ _ => false;
     fs_makedirs_error := fun _ _ => None;
     fs_save_error := fun _ _ _ => None |}.

(** The loop at [size = 150] on the glyph [stuck]: the quotient
    [size * size / dim] of every pass. *)
Definition stuck_quotient : PyNum.float :=
  match PyNum.int_truediv (150 * 150) 151 with
  | Ok q => q
  | Raise _ => S754_nan
  end.

End Demo.


(** * Properties *)

(** ** Strings *)

Module PyStrFacts.
Import PyStr.

Lemma length_app (a b : string) :
  String.length (a ++ b) = (String.length a + String.length b)%nat.
Proof. induction a as [|c a IH]; simpl; [reflexivity | now rewrite IH]. Qed.

Lemma drop_all (n : nat) (s : string) :
  (String.length s <= n)%nat -> drop n s = "".
Proof.
  revert n; induction s as [|c s IH]; intros [|n] H; simpl in *;
    try reflexivity; try lia.
  apply IH; lia.
Qed.

Lemma drop_app (a b : string) : drop (String.length a) (a ++ b) = b.
Proof. induction a as [|c a IH]; simpl; [now destruct b | exact IH]. Qed.

Lemma take_app (a b : string) : take (String.length a) (a ++ b) = a.
Proof. induction a as [|c a IH]; simpl; [now destruct b | now rewrite IH]. Qed.

Lemma prefix_split (p s : string) :
  String.prefix p s = true -> s = p ++ drop (String.length p) s.
Proof.
  revert s; induction p as [|c p IH]; intros s H; simpl.
  - now destruct s.
  - destruct s as [|d s]; simpl in H; [discriminate|].
    destruct (Ascii.ascii_dec c d) as [->|]; [|discriminate].
    simpl. f_equal. now apply IH.
Qed.

Lemma prefix_app (p s : string) : String.prefix p (p ++ s) = true.
Proof.
  induction p as [|c p IH]; simpl; [now destruct s|].
  destruct (Ascii.ascii_dec c c); [exact IH | congruence].
Qed.

(** The order of [str]: [String.compare] is transitive. *)
Lemma ascii_compare_lt_trans (a b c : ascii) :
  Ascii.compare a b = Lt -> Ascii.compare b c = Lt -> Ascii.compare a c = Lt.
Proof.
  unfold Ascii.compare; rewrite !N.compare_lt_iff; apply N.lt_trans.
Qed.

Lemma compare_lt_trans (a b c : string) :
  String.compare a b = Lt -> String.compare b c = Lt -> String.compare a c = Lt.
Proof.
  revert b c; induction a as [|x a IH]; intros [|y b] [|z c]; simpl;
    try discriminate; try reflexivity.
  destruct (Ascii.compare x y) eqn:Exy; try discriminate;
    destruct (Ascii.compare y z) eqn:Eyz; try discriminate; intros H1 H2.
  - apply Ascii.compare_eq_iff in Exy, Eyz; subst.
    assert (E : Ascii.compare z z = Eq) by (unfold Ascii.compare; apply N.compare_refl).
    rewrite E. eapply IH; eassumption.
  - apply Ascii.compare_eq_iff in Exy; subst. now rewrite Eyz.
  - apply Ascii.compare_eq_iff in Eyz; subst. now rewrite Exy.
  - now rewrite (ascii_compare_lt_trans _ _ _ Exy Eyz).
Qed.

Lemma ltb_trans (a b c : string) :
  String.ltb a b = true -> String.ltb b c = true -> String.ltb a c = true.
Proof.
  unfold String.ltb.
  destruct (String.compare a b) eqn:E1; try discriminate.
  destruct (String.compare b c) eqn:E2; try discriminate.
  now rewrite (compare_lt_trans _ _ _ E1 E2).
Qed.

Lemma leb_neq_ltb (a b : string) :
  String.leb a b = true -> a <> b -> String.ltb a b = true.
Proof.
  unfold String.leb, String.ltb.
  destruct (String.compare a b) eqn:E; try discriminate; auto.
  apply String.compare_eq_iff in E. congruence.
Qed.

Lemma leb_false_flip (a b : string) :
  String.leb a b = false -> String.leb b a = true.
Proof. destruct (String.leb_total a b); congruence. Qed.

End PyStrFacts.

(** ** Dictionaries *)

Module DictFacts.
Import Dict.

Section WithValues.
Context {V : Type}.
Implicit Types (d l : dict V) (k : string) (v : V).

Lemma keys_set_In d k v k0 :
  In k0 (keys (set d k v)) <-> k0 = k \/ In k0 (keys d).
Proof.
  induction d as [|[k' v'] d IH]; simpl.
  - intuition congruence.
  - destruct (String.eqb_spec k' k) as [->|Hne]; simpl.
    + intuition.
    + rewrite IH. intuition.
Qed.

Lemma keys_set_NoDup d k v : NoDup (keys d) -> NoDup (keys (set d k v)).
Proof.
  induction d as [|[k' v'] d IH]; simpl; intros H.
  - constructor; [intros [] | constructor].
  - inversion H as [|? ? Hnot Hd]; subst.
    destruct (String.eqb_spec k' k) as [->|Hne]; simpl.
    + now constructor.
    + constructor; [|now apply IH].
      rewrite keys_set_In. intros [->|Hin]; [congruence | contradiction].
Qed.

Lemma set_fresh d k v : ~ In k (keys d) -> set d k v = (d ++ [(k, v)])%list.
Proof.
  induction d as [|[k' v'] d IH]; simpl; intros H; [reflexivity|].
  destruct (String.eqb_spec k' k) as [->|Hne]; [tauto|].
  rewrite IH; tauto.
Qed.

Lemma assign_all_In g l : forall acc k0,
  In k0 (keys (assign_all g acc l)) <->
  In k0 (keys acc) \/ exists n, In n (keys l) /\ k0 = g n.
Proof.
  unfold assign_all.
  induction l as [|[n v] l IH]; intros acc k0; simpl.
  - split; [auto | intros [H|[n [[] _]]]; exact H].
  - rewrite IH, keys_set_In. split.
    + intros [[->|H]|[m [Hm ->]]]; eauto.
    + intros [H|[m [[<-|Hm] ->]]]; eauto.
Qed.

Lemma assign_all_NoDup g l : forall acc,
  NoDup (keys acc) -> NoDup (keys (assign_all g acc l)).
Proof.
  unfold assign_all.
  induction l as [|[n v] l IH]; intros acc H; simpl; [exact H|].
  apply IH, keys_set_NoDup, H.
Qed.

Lemma of_items_In l k0 : In k0 (keys (of_items l)) <-> In k0 (keys l).
Proof.
  change (of_items l) with (assign_all (fun k => k) [] l).
  rewrite assign_all_In. simpl. split.
  - intros [[]|[n [H ->]]]; exact H.
  - eauto.
Qed.

(** [OrderedDict] of items with distinct keys keeps them as they are. *)
Lemma of_items_id_aux l : forall acc,
  NoDup (keys (acc ++ l)%list) ->
  fold_left (fun a kv => set a (fst kv) (snd kv)) l acc = (acc ++ l)%list.
Proof.
  induction l as [|[n v] l IH]; intros acc H; simpl.
  - now rewrite app_nil_r.
  - assert (Hfresh : ~ In n (keys acc)).
    { unfold keys in *. rewrite map_app in H. simpl in H.
      apply NoDup_remove_2 in H. intros Hin. apply H.
      apply in_or_app. now left. }
    rewrite (set_fresh _ _ _ Hfresh), IH.
    + now rewrite <- app_assoc.
    + now rewrite <- app_assoc.
Qed.

Lemma of_items_id l : NoDup (keys l) -> of_items l = l.
Proof. intros H. unfold of_items. now rewrite of_items_id_aux. Qed.

(** [sorted]: a permutation, in ascending order of the keys. *)
Lemma insert_perm x l : Permutation (insert x l) (x :: l).
Proof.
  induction l as [|y l IH]; simpl; [reflexivity|].
  destruct (String.leb (fst x) (fst y)); [reflexivity|].
  rewrite IH. apply perm_swap.
Qed.

Lemma sorted_perm l : Permutation (sorted l) l.
Proof.
  induction l as [|x l IH]; simpl; [reflexivity|].
  rewrite insert_perm. now constructor.
Qed.

Lemma insert_sorted x l : Sorted le_key l -> Sorted le_key (insert x l).
Proof.
  induction l as [|y l IH]; simpl; intros H.
  - repeat constructor.
  - destruct (String.leb (fst x) (fst y)) eqn:E.
    + constructor; [exact H | constructor; exact E].
    + apply Sorted_inv in H as [Hs Hh].
      constructor; [now apply IH|].
      destruct l as [|z l]; simpl.
      * constructor. now apply PyStrFacts.leb_false_flip.
      * destruct (String.leb (fst x) (fst z)).
        -- constructor. now apply PyStrFacts.leb_false_flip.
        -- constructor. now apply HdRel_inv in Hh.
Qed.

Lemma sorted_sorted l : Sorted le_key (sorted l).
Proof.
  induction l as [|x l IH]; simpl; [constructor | now apply insert_sorted].
Qed.

Lemma sorted_In l k0 : In k0 (keys (sorted l)) <-> In k0 (keys l).
Proof.
  unfold keys. split; apply Permutation_in, Permutation_map;
    [apply sorted_perm | symmetry; apply sorted_perm].
Qed.

Lemma sorted_NoDup l : NoDup (keys l) -> NoDup (keys (sorted l)).
Proof.
  unfold keys. apply Permutation_NoDup, Permutation_map.
  symmetry. apply sorted_perm.
Qed.

(** Distinct keys in ascending order are in strictly ascending order. *)
Lemma strictly_sorted l :
  Sorted le_key l -> NoDup (keys l) ->
  StronglySorted (fun a b => String.ltb a b = true) (keys l).
Proof.
  intros Hs Hn. apply Sorted_StronglySorted.
  - intros a b c. apply PyStrFacts.ltb_trans.
  - induction Hs as [|x l Hs IH Hh]; simpl; [constructor|].
    inversion Hn as [|? ? Hnot Hn']; subst.
    constructor; [now apply IH|].
    destruct Hh as [|y l Hxy]; simpl; constructor.
    apply PyStrFacts.leb_neq_ltb; [exact Hxy|].
    intros E. apply Hnot. simpl. now left.
Qed.

End WithValues.

End DictFacts.

(** ** The regular expression of the icon rules *)

Module ReFacts.
Import PyStr Re.

Lemma last_before_bound (s : string) (j : nat) :
  last_before s = Some j -> (j + 7 <= String.length s)%nat.
Proof.
  revert j; induction s as [|c s IH]; intros j; simpl; [discriminate|].
  destruct (Ascii.eqb c newline); [discriminate|].
  destruct (last_before s) as [i|].
  - intros [= <-]. specialize (IH i eq_refl). lia.
  - destruct c as [[] [] [] [] [] [] [] []]; try discriminate.
    destruct (String.prefix "before" s) eqn:E; [|discriminate].
    intros [= <-]. apply PyStrFacts.prefix_split in E.
    rewrite E, PyStrFacts.length_app. simpl. lia.
Qed.

(** On [name:before], a name of one line, the group is the whole name. *)
Lemma last_before_name (name : string) :
  one_line name = true ->
  last_before (name ++ ":before") = Some (String.length name).
Proof.
  induction name as [|c name IH]; simpl; [reflexivity|].
  intros H. apply andb_prop in H as [Hc Hn].
  apply negb_true_iff in Hc. rewrite Hc, (IH Hn). reflexivity.
Qed.

Lemma scan_skip_all (s : string) :
  forall k, (String.length s <= k)%nat -> scan k s = [].
Proof.
  induction s as [|c s IH]; intros k H; simpl; [reflexivity|].
  destruct k as [|k]; simpl in H; [lia|]. apply IH. lia.
Qed.

Lemma match_here_name (name : string) :
  one_line name = true ->
  match_here ("." ++ name ++ ":before")
  = Some (name, (String.length name + 8)%nat).
Proof.
  intros H. simpl. rewrite (last_before_name _ H).
  replace (String.length name + 7)%nat
    with (String.length (name ++ ":before"))
    by (rewrite PyStrFacts.length_app; reflexivity).
  rewrite (PyStrFacts.drop_all _ (name ++ ":before")) by lia.
  rewrite PyStrFacts.take_app, PyStrFacts.length_app. simpl.
  do 2 f_equal. lia.
Qed.

Lemma is_icon_match_name (name : string) :
  one_line name = true -> is_icon_match ("." ++ name ++ ":before") = true.
Proof. intros H. unfold is_icon_match. now rewrite match_here_name. Qed.

Lemma is_icon_finditer_name (name : string) :
  one_line name = true ->
  is_icon_finditer ("." ++ name ++ ":before") = [name].
Proof.
  intros H. unfold is_icon_finditer.
  change (scan 0 ("." ++ name ++ ":before"))
    with (match match_here ("." ++ name ++ ":before") with
          | Some (g, len) => g :: scan (len - 1) (name ++ ":before")
          | None => scan 0 (name ++ ":before")
          end).
  rewrite (match_here_name _ H). f_equal.
  apply scan_skip_all. rewrite PyStrFacts.length_app. simpl. lia.
Qed.

End ReFacts.

(** ** The icon table builder *)

Lemma remove_prefix_NoDup (p : string) (icons : Dict.dict uchar) :
  NoDup (Dict.keys (remove_prefix p icons)).
Proof.
  change (remove_prefix p icons)
    with (Dict.assign_all (fun k => PyStr.drop (String.length p) k) [] icons).
  apply DictFacts.assign_all_NoDup. constructor.
Qed.

Lemma remove_prefix_In (p : string) (icons : Dict.dict uchar) (k : string) :
  In k (Dict.keys (remove_prefix p icons)) <->
  exists n, In n (Dict.keys icons) /\ k = PyStr.drop (String.length p) n.
Proof.
  change (remove_prefix p icons)
    with (Dict.assign_all (fun k => PyStr.drop (String.length p) k) [] icons).
  rewrite DictFacts.assign_all_In. simpl. split.
  - intros [[]|H]; exact H.
  - intros H. right. exact H.
Qed.

Section LoadCssFacts.

Variable int16 : string -> option Z.
Import Dict.

Lemma store_content_keys name decls : forall icons icons',
  store_content int16 name decls icons = Ok icons' ->
  (NoDup (keys icons) -> NoDup (keys icons')) /\
  (forall k, In k (keys icons') <->
             In k (keys icons) \/ (k = name /\ has_content decls = true)).
Proof.
  induction decls as [|d decls IH]; intros icons icons'; simpl.
  - intros [= <-]. split; [auto|]. intros k. split; [auto|].
    intros [H|[_ H]]; [exact H | discriminate].
  - destruct (String.eqb (decl_name d) "content"); simpl.
    + destruct (py_int16 int16 _) as [n|]; simpl; [|discriminate].
      destruct (unichr n) as [c|]; simpl; [|discriminate].
      intros H. apply IH in H as [Hn Hk]. split.
      * intros Hd. apply Hn, DictFacts.keys_set_NoDup, Hd.
      * intros k. rewrite Hk, DictFacts.keys_set_In. intuition.
    + intros H. apply IH in H as [Hn Hk]. split; [exact Hn|].
      intros k. rewrite Hk. intuition.
Qed.

Lemma store_matches_keys names decls : forall icons icons',
  store_matches int16 names decls icons = Ok icons' ->
  (NoDup (keys icons) -> NoDup (keys icons')) /\
  (forall k, In k (keys icons') <->
             In k (keys icons) \/ (In k names /\ has_content decls = true)).
Proof.
  induction names as [|name names IH]; intros icons icons'; simpl.
  - intros [= <-]. split; [auto|]. intros k. split; [auto|].
    intros [H|[[] _]]; exact H.
  - destruct (store_content int16 name decls icons) as [icons1|] eqn:E1;
      simpl; [|discriminate].
    intros H. apply IH in H as [Hn Hk].
    apply store_content_keys in E1 as [Hn1 Hk1]. split; [auto|].
    intros k. rewrite Hk, Hk1. intuition.
Qed.

Lemma load_rule_NoDup st r st' :
  load_rule int16 st r = Ok st' -> NoDup (keys (fst st)) -> NoDup (keys (fst st')).
Proof.
  destruct r as [selector decls|]; simpl; [|discriminate].
  destruct (Re.is_icon_match selector); simpl.
  - destruct st as [icons cp].
    destruct (store_matches int16 _ decls icons) as [icons1|] eqn:E;
      simpl; [|discriminate].
    intros [= <-]. simpl. apply (store_matches_keys _ _ _ _ E).
  - now intros [= <-].
Qed.

Lemma load_rules_NoDup css : forall st st',
  load_rules int16 st css = Ok st' ->
  NoDup (keys (fst st)) -> NoDup (keys (fst st')).
Proof.
  induction css as [|r css IH]; intros st st'; simpl.
  - now intros [= <-].
  - destruct (load_rule int16 st r) as [st1|] eqn:E; simpl; [|discriminate].
    intros H Hn. eapply IH; [exact H|]. eapply load_rule_NoDup; eassumption.
Qed.

(** [load_css] in terms of the loop over the rules. *)
Lemma load_css_inv keep css t p :
  load_css int16 keep css = Ok (t, p) ->
  exists icons cp,
    load_rules int16 ([], None) css = Ok (icons, cp) /\
    NoDup (keys icons) /\
    p = match cp with Some q => q | None => "" end /\
    t = sorted (if negb keep && (0 <? Z.of_nat (String.length p))
                then remove_prefix p icons else icons).
Proof.
  unfold load_css.
  destruct (load_rules int16 ([], None) css) as [[icons cp]|] eqn:E;
    simpl; [|discriminate].
  intros [= <- <-]. exists icons, cp.
  assert (Hn : NoDup (keys icons)).
  { apply (load_rules_NoDup _ _ _ E). constructor. }
  repeat split; try assumption.
  apply DictFacts.of_items_id, DictFacts.sorted_NoDup.
  destruct (negb keep && _); [apply remove_prefix_NoDup | exact Hn].
Qed.

End LoadCssFacts.

Section LoadCssTheorems.

Variable int16 : string -> option Z.
Import Dict.

(** C5. Whatever the stylesheet and the order of its rules, the keys of
    the table that [load_css] returns are in ascending order of their code
    points, each strictly below all that follow. *)
Theorem load_css_keys_ascending (keep : bool) (css : stylesheet)
    (t : dict uchar) (p : string) :
  load_css int16 keep css = Ok (t, p) ->
  StronglySorted (fun a b => String.ltb a b = true) (keys t).
Proof.
  intros H. apply load_css_inv in H as (icons & cp & _ & Hn & _ & ->).
  apply DictFacts.strictly_sorted.
  - apply DictFacts.sorted_sorted.
  - apply DictFacts.sorted_NoDup.
    destruct (negb keep && _); [apply remove_prefix_NoDup | exact Hn].
Qed.

(** C4, amended. When every icon name starts with the common prefix [p]
    that [load_css] returns, the table built without [keep_prefix] has
    exactly the keys [k] such that [p ++ k] is an icon name: each name
    loses the leading [p] once. *)
Theorem load_css_strips_common_prefix (css : stylesheet)
    (named stripped : dict uchar) (p p' : string) :
  load_css int16 true css = Ok (named, p) ->
  load_css int16 false css = Ok (stripped, p') ->
  (forall n, In n (keys named) -> String.prefix p n = true) ->
  p' = p /\
  forall k, In k (keys stripped) <-> In (p ++ k) (keys named).
Proof.
  intros H1 H2 Hp.
  apply load_css_inv in H1 as (icons & cp & E1 & _ & Hp1 & ->).
  apply load_css_inv in H2 as (icons2 & cp2 & E2 & _ & Hp2 & ->).
  rewrite E1 in E2. injection E2 as <- <-. subst p'.
  split; [now rewrite Hp1|]. rewrite <- Hp1. clear Hp1.
  simpl negb in *. simpl andb in *.
  assert (Hnames : forall n, In n (keys icons) -> String.prefix p n = true).
  { intros n Hn. apply Hp. now apply DictFacts.sorted_In. }
  intros k. rewrite !DictFacts.sorted_In.
  destruct (0 <? Z.of_nat (String.length p)) eqn:Elen.
  - rewrite remove_prefix_In. split.
    + intros (n & Hn & ->).
      now rewrite <- (PyStrFacts.prefix_split _ _ (Hnames n Hn)).
    + intros Hk. exists (p ++ k). split; [exact Hk|].
      now rewrite PyStrFacts.drop_app.
  - destruct p; [reflexivity | discriminate].
Qed.

Lemma singleton_keys (d : dict uchar) (a : string) :
  NoDup (keys d) -> (forall k, In k (keys d) <-> k = a) ->
  exists v, d = [(a, v)].
Proof.
  intros Hn Hk. destruct d as [|[k v] d].
  - exfalso. now apply (Hk a).
  - destruct d as [|[k2 v2] d].
    + exists v. f_equal. f_equal. apply (Hk k). now left.
    + exfalso. inversion Hn as [|? ? Hnot _]; subst. apply Hnot.
      simpl. left.
      transitivity a; [|symmetry]; apply Hk; simpl; auto.
Qed.

(** A rule set whose selector [is_icon] does not match leaves the state of
    the loop as it is. *)
Lemma load_rules_skip (st : css_state) (pre rest : stylesheet) :
  (forall r, In r pre ->
     exists selector decls,
       r = RuleSet selector decls /\ Re.is_icon_match selector = false) ->
  load_rules int16 st (pre ++ rest)%list = load_rules int16 st rest.
Proof.
  induction pre as [|r pre IH]; intros H; [reflexivity|].
  destruct (H r (or_introl eq_refl)) as (selector & decls & -> & Hm).
  cbn [app load_rules load_rule]. rewrite Hm. cbn [negb rbind].
  apply IH. intros r Hr. apply H. now right.
Qed.

(** C3, amended. For a stylesheet whose one icon rule is [.name:before],
    with a [content] declaration, among any number of rule sets that are no
    icon rules, before it and after it: the common prefix that [load_css]
    returns is the selector without its dot, that is [name:before]; without
    [keep_prefix] the table has exactly one entry, whose key is the empty
    string, and with [keep_prefix] its one key is [name]. *)
Theorem load_css_single_rule (name : string) (decls : list declaration)
    (keep : bool) (pre post : stylesheet) (t : dict uchar) (p : string) :
  Re.one_line name = true ->
  has_content decls = true ->
  (forall r, In r (pre ++ post)%list ->
     exists selector ds,
       r = RuleSet selector ds /\ Re.is_icon_match selector = false) ->
  load_css int16 keep
    (pre ++ RuleSet ("." ++ name ++ ":before") decls :: post)%list
  = Ok (t, p) ->
  p = name ++ ":before" /\
  keys t = [if keep then name else ""].
Proof.
  intros Hline Hc Hskip H.
  apply load_css_inv in H as (icons & cp & E & Hn & Hp & ->).
  rewrite load_rules_skip in E
    by (intros r Hr; apply Hskip, in_or_app; now left).
  cbn [load_rules load_rule] in E.
  rewrite (ReFacts.is_icon_match_name _ Hline) in E.
  rewrite (ReFacts.is_icon_finditer_name _ Hline) in E.
  cbn [negb store_matches rbind] in E.
  destruct (store_content int16 name decls []) as [icons1|] eqn:E1;
    cbn [rbind] in E; [|discriminate].
  rewrite <- (app_nil_r post) in E.
  rewrite load_rules_skip in E
    by (intros r Hr; apply Hskip, in_or_app; now right).
  cbn [load_rules] in E.
  injection E as <- <-.
  apply store_content_keys in E1 as [_ Hk].
  destruct (singleton_keys icons1 name Hn) as [v ->].
  { intros k. rewrite Hk. simpl. intuition. }
  assert (Hp' : p = name ++ ":before") by exact Hp.
  split; [exact Hp'|]. subst p.
  destruct keep; cbn [negb andb]; [reflexivity|].
  assert (Hlen : String.length (name ++ ":before")
                 = (String.length name + 7)%nat)
    by (rewrite PyStrFacts.length_app; reflexivity).
  replace (0 <? Z.of_nat (String.length (name ++ ":before"))) with true
    by (symmetry; apply Z.ltb_lt; lia).
  cbn [remove_prefix fold_left set fst snd sorted insert keys map].
  rewrite PyStrFacts.drop_all by lia. reflexivity.
Qed.

End LoadCssTheorems.

(** The stylesheet of the two rules [.icon-home:before] and
    [.icon-user:before], with a rule that is no icon in between. *)
Lemma load_css_keys_ascending_witness :
  StronglySorted (fun a b => String.ltb a b = true) ["home"; "user"].
Proof.
  exact (load_css_keys_ascending Hex.int16 false Demo.home_user
           [("home", 61697); ("user", 61698)] "icon-" eq_refl).
Defined.

Lemma load_css_strips_common_prefix_witness :
  "icon-" = "icon-" /\
  forall k, In k ["home"; "user"] <-> In ("icon-" ++ k) ["icon-home"; "icon-user"].
Proof.
  refine (load_css_strips_common_prefix Hex.int16 Demo.home_user
            [("icon-home", 61697); ("icon-user", 61698)]
            [("home", 61697); ("user", 61698)] "icon-" "icon-"
            eq_refl eq_refl _).
  intros n [<-|[<-|[]]]; reflexivity.
Defined.

Lemma load_css_single_rule_witness :
  load_css Hex.int16 false
    [RuleSet ".other" [Decl "content" "none"];
     RuleSet ".icon-home:before" [Decl "content" (Demo.css_quote "\f101")];
     RuleSet "a:hover" [Decl "color" "red"]]
  = Ok ([("", 61697)], "icon-home:before") /\
  "icon-home:before" = "icon-home" ++ ":before" /\
  Dict.keys [("", 61697)] = [""].
Proof.
  split; [reflexivity|].
  refine (load_css_single_rule Hex.int16 "icon-home"
            [Decl "content" (Demo.css_quote "\f101")] false
            [RuleSet ".other" [Decl "content" "none"]]
            [RuleSet "a:hover" [Decl "color" "red"]]
            [("", 61697)] "icon-home:before" eq_refl eq_refl _ eq_refl).
  intros r [<-|[<-|[]]]; eexists _, _; split; reflexivity.
Defined.

(** C3 as stated fails: for the one rule [.icon-home:before] the common
    prefix returned is [icon-home:before], not the icon name [icon-home]. *)
Lemma single_rule_prefix_is_not_the_name :
  load_css Hex.int16 false Demo.only_home
  = Ok ([("", 61697)], "icon-home:before")
  /\ "icon-home:before" <> "icon-home".
Proof. split; [reflexivity | discriminate]. Qed.

(** C4 as stated fails: the names [aab] and [ab] share the prefix [a], which
    [load_css] returns and strips once; the key [ab] that is left of [aab]
    still starts with [a] and is longer. *)
Lemma stripped_key_retains_prefix :
  load_css Hex.int16 true Demo.doubled
  = Ok ([("aab", 61697); ("ab", 61698)], "a")
  /\ load_css Hex.int16 false Demo.doubled
     = Ok ([("ab", 61697); ("b", 61698)], "a")
  /\ String.prefix "a" "ab" = true /\ "ab" <> "a" /\ "a" <> "".
Proof. repeat split; try reflexivity; discriminate. Qed.


(** ** Numbers *)

Module PyNumFacts.
Import PyNum.

Lemma same_eq (a b : float) : same a b = true -> a = b.
Proof.
  destruct a as [s|s| |s m e], b as [s'|s'| |s' m' e']; simpl;
    try discriminate; try reflexivity.
  - intros H. apply Bool.eqb_prop in H. now subst.
  - intros H. apply Bool.eqb_prop in H. now subst.
  - intros H. apply andb_prop in H as [H He]. apply andb_prop in H as [Hs Hm].
    apply Bool.eqb_prop in Hs. apply Pos.eqb_eq in Hm. apply Z.eqb_eq in He.
    now subst.
Qed.

Lemma nonneg_not_negative (x : float) : nonneg x = true -> not_negative x.
Proof.
  destruct x as [s|s| |s m e]; simpl; try easy;
    intros H; now apply negb_true_iff in H.
Qed.

(** Rounding keeps the sign it is given. *)
Lemma round_aux_sign (prec emax : Z) (m e : Z) (l : location) :
  not_negative (binary_round_aux prec emax false m e l).
Proof.
  unfold binary_round_aux.
  destruct (shr_fexp prec emax m e l) as [mrs' e'].
  destruct (shr_fexp prec emax _ e' loc_Exact) as [mrs'' e''].
  destruct (shr_m mrs''); simpl; try easy.
  destruct (e'' <=? emax - prec); simpl; reflexivity.
Qed.

Lemma float_of_int_sign (n : Z) (x : float) :
  0 <= n -> float_of_int n = Ok x -> not_negative x.
Proof.
  unfold float_of_int. intros Hn.
  assert (H : not_negative (binary_normalize 53 1024 n 0 false)).
  { destruct n as [|m|m]; [reflexivity| |lia].
    unfold binary_normalize, binary_round.
    destruct (shl_align _ _ _) as [mz ez]. apply round_aux_sign. }
  destruct (binary_normalize 53 1024 n 0 false); try discriminate;
    intros [= <-]; exact H.
Qed.

Lemma fmul_sign (x y : float) :
  not_negative x -> not_negative y -> not_negative (fmul x y).
Proof.
  destruct x as [s|s| |s m e], y as [s'|s'| |s' m' e'];
    intros Hx Hy; simpl in Hx, Hy; subst; simpl; trivial.
  apply round_aux_sign.
Qed.

(** On a float that is not negative, [int] is the floor. *)
Lemma int_of_float_floor (x : float) (n : Z) :
  not_negative x -> int_of_float x = Ok n -> floor x = Some n.
Proof.
  destruct x as [s|s| |s m e]; simpl; try discriminate.
  - now intros _ [= <-].
  - intros -> [= <-]. f_equal.
    destruct (Z.leb_spec 0 e).
    + now rewrite Z.shiftl_mul_pow2.
    + rewrite <- Z.shiftr_opp_r, Z.shiftr_div_pow2 by lia. reflexivity.
Qed.

(** A float that has a floor is one that [int] accepts. *)
Lemma floor_int_of_float (x : float) (n : Z) :
  not_negative x -> floor x = Some n -> int_of_float x = Ok n.
Proof.
  intros Hx Hf.
  destruct (int_of_float x) as [k|e] eqn:E.
  - apply (int_of_float_floor x k Hx) in E. congruence.
  - destruct x; simpl in *; discriminate.
Qed.

Lemma no_floor_int_of_float (x : float) :
  floor x = None -> exists e, int_of_float x = Raise e.
Proof. destruct x; simpl; try discriminate; eauto. Qed.

End PyNumFacts.

(** ** Computations *)

Lemma bind_Ok {A B} (m : M A) (k : A -> M B) (w w' : world) (b : B) :
  bind m k w = Some (Ok b, w') ->
  exists a w1, m w = Some (Ok a, w1) /\ k a w1 = Some (Ok b, w').
Proof.
  unfold bind. destruct (m w) as [[[a|e] w1]|]; try discriminate.
  intros H. now exists a, w1.
Qed.

Lemma lift_Ok {A} (r : result A) (w w' : world) (a : A) :
  lift r w = Some (Ok a, w') -> r = Ok a /\ w' = w.
Proof. unfold lift. now intros [= -> ->]. Qed.

Lemma ret_Ok {A} (a b : A) (w w' : world) :
  ret a w = Some (Ok b, w') -> a = b /\ w' = w.
Proof. unfold ret. now intros [= -> ->]. Qed.

Lemma emits_ret {A} (a : A) (Q : result A -> list event -> Prop) :
  Q (Ok a) [] -> emits (ret a) Q.
Proof. intros H w. exists (Ok a), []. now rewrite app_nil_r. Qed.

Lemma emits_raise {A} (e : py_exn) (Q : result A -> list event -> Prop) :
  Q (Raise e) [] -> emits (raise e) Q.
Proof. intros H w. exists (Raise e), []. now rewrite app_nil_r. Qed.

Lemma emits_lift {A} (r : result A) (Q : result A -> list event -> Prop) :
  Q r [] -> emits (lift r) Q.
Proof. intros H w. exists r, []. now rewrite app_nil_r. Qed.

Lemma emits_emit (ev : event) (Q : result unit -> list event -> Prop) :
  Q (Ok tt) [ev] -> emits (emit ev) Q.
Proof. intros H w. now exists (Ok tt), [ev]. Qed.

Lemma emits_bind {A B} (m : M A) (k : A -> M B)
    (P : result A -> list event -> Prop) (Q : result B -> list event -> Prop) :
  emits m P ->
  (forall a evs, P (Ok a) evs ->
     emits (k a) (fun r evs' => Q r (evs ++ evs')%list)) ->
  (forall e evs, P (Raise e) evs -> Q (Raise e) evs) ->
  emits (bind m k) Q.
Proof.
  intros Hm Hk He w. destruct (Hm w) as (r & evs & E & HP).
  unfold bind. rewrite E. destruct r as [a|e].
  - destruct (Hk a evs HP (w ++ evs)%list) as (r' & evs' & E' & HQ).
    exists r', (evs ++ evs')%list. now rewrite app_assoc.
  - exists (Raise e), evs. auto.
Qed.

Lemma emits_weaken {A} (m : M A) (P Q : result A -> list event -> Prop) :
  emits m P -> (forall r evs, P r evs -> Q r evs) -> emits m Q.
Proof.
  intros Hm H w. destruct (Hm w) as (r & evs & E & HP).
  exists r, evs. auto.
Qed.

Lemma pure_emits {A} (m : M A) (Q : result A -> list event -> Prop) :
  pure m -> (forall r, Q r []) -> emits m Q.
Proof.
  intros Hm H w. destruct (Hm w) as (r & E). exists r, [].
  now rewrite app_nil_r.
Qed.

Lemma always_raises_emits {A} (m : M A) :
  always_raises m -> emits m (fun r evs => (exists e, r = Raise e) /\ evs = []).
Proof.
  intros Hm w. destruct (Hm w) as (e & E). exists (Raise e), [].
  rewrite app_nil_r. eauto.
Qed.

Lemma pure_ret {A} (a : A) : pure (ret a).
Proof. intros w. now exists (Ok a). Qed.

Lemma pure_raise {A} (e : py_exn) : pure (@raise A e).
Proof. intros w. now exists (Raise e). Qed.

Lemma pure_lift {A} (r : result A) : pure (lift r).
Proof. intros w. now exists r. Qed.

Lemma pure_bind {A B} (m : M A) (k : A -> M B) :
  pure m -> (forall a, pure (k a)) -> pure (bind m k).
Proof.
  intros Hm Hk w. destruct (Hm w) as (r & E). unfold bind. rewrite E.
  destruct r as [a|e]; [apply Hk | now exists (Raise e)].
Qed.

Lemma always_raises_raise {A} (e : py_exn) : always_raises (@raise A e).
Proof. intros w. now exists e. Qed.

Lemma always_raises_bind {A B} (m : M A) (k : A -> M B) :
  pure m -> (forall a, always_raises (k a)) -> always_raises (bind m k).
Proof.
  intros Hm Hk w. destruct (Hm w) as (r & E). unfold bind. rewrite E.
  destruct r as [a|e]; [apply Hk | now exists e].
Qed.

Lemma always_raises_first {A B} (m : M A) (k : A -> M B) :
  always_raises m -> always_raises (bind m k).
Proof.
  intros Hm w. destruct (Hm w) as (e & E). unfold bind. rewrite E.
  now exists e.
Qed.

Lemma fonts_loaded_app (a b : list event) :
  fonts_loaded (a ++ b)%list = (fonts_loaded a ++ fonts_loaded b)%list.
Proof. apply flat_map_app. Qed.

Lemma files_written_app (a b : list event) :
  files_written (a ++ b)%list = (files_written a ++ files_written b)%list.
Proof. apply flat_map_app. Qed.

Lemma dirs_made_app (a b : list event) :
  dirs_made (a ++ b)%list = (dirs_made a ++ dirs_made b)%list.
Proof. apply flat_map_app. Qed.

(** ** The scaling step *)

Section ScaleFontFacts.

Variable truetype_error : string -> Z -> option py_exn.
Variable textsize : uchar -> font -> Z * Z.
Variable getbbox : image -> option box.
Variable self : IconFont.

Local Abbreviation auto_loop' := (auto_loop truetype_error textsize self).
Local Abbreviation scale_font' := (scale_font truetype_error textsize getbbox self).

(** The loop leaves only through its [break], with the font and the measure
    of the pass that breaks. *)
Lemma auto_loop_result (fuel : nat) :
  forall icon size iteration factor fnt w fnt' width height w',
    auto_loop' fuel icon size iteration factor fnt w
    = Some (Ok (fnt', width, height), w') ->
    (exists c, (width, height) = textsize c fnt') /\
    Z.max width height <= size.
Proof.
  induction fuel as [|fuel IH]; intros icon size iteration factor fnt w
    fnt' width height w' H; [discriminate|].
  cbn [auto_loop] in H.
  apply bind_Ok in H as (c & w1 & _ & H).
  apply bind_Ok in H as ([wd ht] & w2 & Hts & H).
  destruct (Z.max wd ht >? size) eqn:E.
  - apply bind_Ok in H as (q & w3 & _ & H).
    apply bind_Ok in H as (x & w4 & _ & H).
    apply bind_Ok in H as (px & w5 & _ & H).
    apply bind_Ok in H as (fnt1 & w6 & _ & H).
    apply bind_Ok in H as (factor1 & w7 & _ & H).
    eapply IH. exact H.
  - apply ret_Ok in H as [[= <- <- <-] _].
    rewrite Z.gtb_ltb in E. apply Z.ltb_ge in E. split; [|exact E].
    exists c. unfold draw_textsize, bind, emit, ret in Hts.
    now injection Hts as <- _.
Qed.

(** The pixel size of a fixed scale is the floor of the float product. *)
Lemma pixel_size_floor (size : Z) (f : PyNum.float) (px : Z) :
  0 <= size -> PyNum.nonneg f = true ->
  pixel_size size (PyNum.PFloat f) = Ok px ->
  exists x, PyNum.float_of_int size = Ok x /\
            PyNum.floor (PyNum.fmul x f) = Some px.
Proof.
  intros Hs Hf. unfold pixel_size. cbn [PyNum.mul PyNum.to_float].
  destruct (PyNum.float_of_int size) as [x|] eqn:Ex; cbn [rbind];
    [|discriminate].
  intros H. exists x. split; [reflexivity|].
  apply PyNumFacts.int_of_float_floor; [|exact H].
  apply PyNumFacts.fmul_sign.
  - eapply PyNumFacts.float_of_int_sign; eassumption.
  - now apply PyNumFacts.nonneg_not_negative.
Qed.

(** What [scale_font] does with a fixed scale: it stops before it loads a
    font, or it loads the one font of the pixel size and at most measures
    the glyph with it. *)
Lemma scale_font_fixed_emits (fuel : nat) (ttf icon : string) (size : Z)
    (f : PyNum.float) :
  emits (scale_font' fuel ttf icon size (Fixed f))
    (fun r evs =>
       ((exists e, r = Raise e) /\ evs = [])
       \/ exists px,
            pixel_size size (PyNum.PFloat f) = Ok px /\
            fonts_loaded evs = [(ttf, px)] /\
            files_written evs = [] /\ dirs_made evs = [] /\
            match r with
            | Ok (fnt, width, height, bbox) =>
                exists c,
                  fnt = Font ttf px /\
                  Dict.get (css_icons self) icon = Some c /\
                  (width, height) = textsize c fnt /\
                  evs = [EvTruetype ttf px; EvTextsize c fnt]
            | Raise _ => evs = [EvTruetype ttf px]
            end).
Proof.
  intros w. cbv beta iota zeta delta [scale_font bind Image_new lift
    ImageFont_truetype icon_char draw_textsize emit ret raise].
  destruct ((size <? 0) || (size <? 0)).
  { exists (Raise ValueError), []. rewrite app_nil_r. split; eauto. }
  destruct (pixel_size size (PyNum.PFloat f)) as [px|e] eqn:Epx.
  2:{ exists (Raise e), []. rewrite app_nil_r. split; eauto. }
  destruct (truetype_error ttf px) as [e|].
  { exists (Raise e), [EvTruetype ttf px]. split; [reflexivity|].
    right. exists px. repeat split. }
  destruct (Dict.get (css_icons self) icon) as [c|] eqn:Ec.
  2:{ exists (Raise KeyError), [EvTruetype ttf px]. split; [reflexivity|].
      right. exists px. repeat split. }
  destruct (textsize c (Font ttf px)) as [wd ht] eqn:Ets.
  exists (Ok (Font ttf px, wd, ht, getbbox (New "RGBA" size size (RGBA 0 0 0 0)))),
    [EvTruetype ttf px; EvTextsize c (Font ttf px)].
  cbv beta iota zeta. split.
  - now rewrite <- app_assoc.
  - right. exists px. repeat split. exists c. repeat split.
    now rewrite Ets.
Qed.

(** C6. For a target size [size >= 0] and a fixed scale [f >= 0],
    [scale_font] ends whatever the fuel, and renders once.  When the float
    product [float(size) * f] is a number, with floor [px], it loads exactly
    one font, the file [ttf] at the pixel size [px]; if that font loads and
    the table has the icon, it returns this font with the one measure of
    the glyph taken with it, and has done nothing else.  When [float(size)]
    overflows or the product is no number, it raises before any font is
    loaded. *)
Theorem scale_font_fixed_renders_once (fuel : nat) (ttf icon : string)
    (size : Z) (f : PyNum.float) (w : world) :
  0 <= size -> PyNum.nonneg f = true ->
  exists r evs,
    scale_font' fuel ttf icon size (Fixed f) w = Some (r, (w ++ evs)%list) /\
    match PyNum.float_of_int size with
    | Raise e => r = Raise e /\ evs = []
    | Ok x =>
        match PyNum.floor (PyNum.fmul x f) with
        | None => (exists e, r = Raise e) /\ evs = []
        | Some px =>
            fonts_loaded evs = [(ttf, px)] /\
            (truetype_error ttf px = None ->
             forall c, Dict.get (css_icons self) icon = Some c ->
               r = Ok (Font ttf px,
                       fst (textsize c (Font ttf px)),
                       snd (textsize c (Font ttf px)),
                       getbbox (New "RGBA" size size (RGBA 0 0 0 0))) /\
               evs = [EvTruetype ttf px; EvTextsize c (Font ttf px)])
        end
    end.
Proof.
  intros Hs Hf.
  assert (Hpx : pixel_size size (PyNum.PFloat f)
                = match PyNum.float_of_int size with
                  | Raise e => Raise e
                  | Ok x => PyNum.int_of_float (PyNum.fmul x f)
                  end).
  { unfold pixel_size. cbn [PyNum.mul PyNum.to_float].
    destruct (PyNum.float_of_int size); reflexivity. }
  cbv beta iota zeta delta [scale_font bind Image_new lift
    ImageFont_truetype icon_char draw_textsize emit ret raise].
  replace (size <? 0) with false by (symmetry; apply Z.ltb_ge; lia).
  cbn [orb]. rewrite Hpx. clear Hpx.
  destruct (PyNum.float_of_int size) as [x|e] eqn:Ex.
  2:{ exists (Raise e), []. rewrite app_nil_r. repeat split. }
  assert (Hsign : PyNum.not_negative (PyNum.fmul x f)).
  { apply PyNumFacts.fmul_sign.
    - eapply PyNumFacts.float_of_int_sign; eassumption.
    - now apply PyNumFacts.nonneg_not_negative. }
  destruct (PyNum.floor (PyNum.fmul x f)) as [px|] eqn:Efl.
  2:{ destruct (PyNumFacts.no_floor_int_of_float _ Efl) as (e & ->).
      exists (Raise e), []. rewrite app_nil_r. split; [reflexivity|].
      split; [now exists e | reflexivity]. }
  rewrite (PyNumFacts.floor_int_of_float _ _ Hsign Efl).
  destruct (truetype_error ttf px) as [e|] eqn:El.
  { exists (Raise e), [EvTruetype ttf px].
    split; [reflexivity|]. split; [reflexivity | discriminate]. }
  destruct (Dict.get (css_icons self) icon) as [c|] eqn:Ec.
  2:{ exists (Raise KeyError), [EvTruetype ttf px].
      split; [reflexivity|]. split; [reflexivity|]. intros _ c; discriminate. }
  destruct (textsize c (Font ttf px)) as [wd ht] eqn:Ets.
  exists (Ok (Font ttf px, wd, ht, getbbox (New "RGBA" size size (RGBA 0 0 0 0)))),
    [EvTruetype ttf px; EvTextsize c (Font ttf px)].
  cbv beta iota zeta. split; [now rewrite <- app_assoc|].
  split; [reflexivity|]. intros _ c' [= <-]. rewrite Ets. now split.
Qed.

End ScaleFontFacts.

Lemma scale_font_fixed_renders_once_witness :
  scale_font Demo.loads Demo.tall Demo.blank_bbox Demo.icon_font
    0 "icons.ttf" "home" 150 (Fixed PyNum.f_0_99) []
  = Some (Ok (Font "icons.ttf" 148, 148, 158, None),
          [EvTruetype "icons.ttf" 148;
           EvTextsize 61697 (Font "icons.ttf" 148)]) /\
  exists r evs,
    scale_font Demo.loads Demo.tall Demo.blank_bbox Demo.icon_font
      0 "icons.ttf" "home" 150 (Fixed PyNum.f_0_99) []
    = Some (r, ([] ++ evs)%list) /\
    fonts_loaded evs = [("icons.ttf", 148)] /\
    (Demo.loads "icons.ttf" 148 = None ->
     forall c, Dict.get (css_icons Demo.icon_font) "home" = Some c ->
       r = Ok (Font "icons.ttf" 148,
               fst (Demo.tall c (Font "icons.ttf" 148)),
               snd (Demo.tall c (Font "icons.ttf" 148)),
               Demo.blank_bbox (New "RGBA" 150 150 (RGBA 0 0 0 0))) /\
       evs = [EvTruetype "icons.ttf" 148;
              EvTextsize c (Font "icons.ttf" 148)]).
Proof.
  split; [reflexivity|].
  apply (scale_font_fixed_renders_once Demo.loads Demo.tall Demo.blank_bbox
           Demo.icon_font 0 "icons.ttf" "home" 150 PyNum.f_0_99 []).
  - lia.
  - reflexivity.
Defined.

(** ** The export entry points *)

Section ExportFacts.

Variable truetype_error : string -> Z -> option py_exn.
Variable textsize : uchar -> font -> Z * Z.
Variable getbbox : image -> option box.
Variable fs : file_system.
Variable self : IconFont.

Local Abbreviation scale_font' := (scale_font truetype_error textsize getbbox self).
Local Abbreviation with_wrapper :=
  (export_icon_with_wrapper truetype_error textsize getbbox fs self).

Lemma pure_Image_new (mode : string) (w h : Z) (c : color) :
  pure (Image_new mode w h c).
Proof.
  unfold Image_new. destruct ((w <? 0) || (h <? 0));
    [apply pure_raise | apply pure_ret].
Qed.

Lemma pure_icon_char (icon : string) : pure (icon_char self icon).
Proof.
  unfold icon_char. destruct (Dict.get (css_icons self) icon);
    [apply pure_ret | apply pure_raise].
Qed.

Lemma pure_subscript (b : option box) (i : nat) : pure (subscript b i).
Proof.
  unfold subscript. destruct b as [[[[x0 y0] x1] y1]|];
    [apply pure_ret | apply pure_raise].
Qed.

Lemma pure_float_half (n : Z) : pure (float_half n).
Proof.
  unfold float_half. apply pure_bind; [apply pure_lift|].
  intros x. apply pure_ret.
Qed.

Lemma pure_int_half (n : Z) : pure (int_half n).
Proof.
  unfold int_half. apply pure_bind; [apply pure_lift|].
  intros q. apply pure_lift.
Qed.

Lemma pure_draw_centered (mask : image) (size width height : Z)
    (icon : string) (fnt : font) :
  pure (draw_centered self mask size width height icon fnt).
Proof.
  unfold draw_centered.
  apply pure_bind; [apply pure_float_half | intros x].
  apply pure_bind; [apply pure_float_half | intros y].
  apply pure_bind; [apply pure_icon_char | intros c].
  apply pure_ret.
Qed.

(** A fixed scale loads at most the font of its pixel size, and writes
    nothing. *)
Lemma scale_font_fixed_loads (fuel : nat) (ttf icon : string) (size : Z)
    (f : PyNum.float) :
  emits (scale_font' fuel ttf icon size (Fixed f))
    (fun _ evs =>
       files_written evs = [] /\ dirs_made evs = [] /\
       (fonts_loaded evs = [] \/
        exists px, pixel_size size (PyNum.PFloat f) = Ok px /\
                   fonts_loaded evs = [(ttf, px)])).
Proof.
  eapply emits_weaken; [apply scale_font_fixed_emits|].
  intros r evs [[_ ->]|(px & Hpx & Hl & Hf & Hd & _)].
  - repeat split. now left.
  - repeat split; try assumption. right. now exists px.
Qed.

(** The lines of [export_icon_with_wrapper] after the two calls of
    [scale_font] never reach the file system: [bbox] is subscripted, and
    then [org_size] is read, a name that the function does not bind. *)
Lemma with_wrapper_tail_raises (size : Z) (icon wrapper_icon color_ : string)
    (filename : option string) (export_dir : string)
    (fnt fnt2 : font) (width height width2 height2 : Z)
    (bbox bbox2 : option box) :
  always_raises
    (image_mask <- Image_new "L" size size (Gray 0) ;;
     image_mask <- draw_centered self image_mask size width2 height2 wrapper_icon fnt2 ;;
     image_mask <- draw_centered self image_mask size width height icon fnt ;;
     icon_image <- Image_new "RGBA" size size (ColorName color_) ;;
     let icon_image := PutAlpha icon_image image_mask in
     let icon_image :=
       match bbox2 with
       | Some b => Crop icon_image b
       | None => icon_image
       end in
     b2 <- subscript bbox 2 ;; b0 <- subscript bbox 0 ;;
     border_w <- int_half (size - (b2 - b0)) ;;
     b3 <- subscript bbox 3 ;; b1 <- subscript bbox 1 ;;
     border_h <- int_half (size - (b3 - b1)) ;;
     out_image <- Image_new "RGBA" size size (RGBA 0 0 0 0) ;;
     let out_image := Paste out_image icon_image border_w border_h in
     org_size <- unbound "org_size" ;;
     let out_image :=
       if negb (org_size =? size)
       then Resize out_image org_size org_size
       else out_image in
     save_png fs out_image icon filename export_dir)%py.
Proof.
  cbv zeta.
  apply always_raises_bind; [apply pure_Image_new | intros mask0].
  apply always_raises_bind; [apply pure_draw_centered | intros mask1].
  apply always_raises_bind; [apply pure_draw_centered | intros mask2].
  apply always_raises_bind; [apply pure_Image_new | intros icon_image].
  apply always_raises_bind; [apply pure_subscript | intros b2].
  apply always_raises_bind; [apply pure_subscript | intros b0].
  apply always_raises_bind; [apply pure_int_half | intros border_w].
  apply always_raises_bind; [apply pure_subscript | intros b3].
  apply always_raises_bind; [apply pure_subscript | intros b1].
  apply always_raises_bind; [apply pure_int_half | intros border_h].
  apply always_raises_bind; [apply pure_Image_new | intros out_image].
  apply always_raises_first. apply always_raises_raise.
Qed.

(** The whole of [export_icon_with_wrapper]: it raises, having loaded at
    most the two fonts of the two fixed scales and written nothing. *)
Lemma with_wrapper_emits (fuel : nat) (icon : string) (size : Z)
    (wrapper_icon : option string) (color_ : string) (scale : scale_arg)
    (filename : option string) (export_dir : string) :
  let full := match scale with Auto => PyNum.f_1 | Fixed f => f end in
  emits (with_wrapper fuel icon size wrapper_icon color_ scale filename export_dir)
    (fun r evs =>
       (exists e, r = Raise e) /\
       files_written evs = [] /\ dirs_made evs = [] /\
       (List.length (fonts_loaded evs) <= 2)%nat /\
       forall p, In p (fonts_loaded evs) ->
         fst p = ttf_file self /\
         (pixel_size size (PyNum.PFloat (PyNum.fdiv full PyNum.f_2)) = Ok (snd p)
          \/ pixel_size size (PyNum.PFloat full) = Ok (snd p))).
Proof.
  intros full. unfold export_icon_with_wrapper. fold full.
  destruct wrapper_icon as [wrapper|].
  2:{ apply emits_weaken with
        (P := fun r evs => (exists e, r = Raise e) /\ evs = []).
      - apply always_raises_emits, always_raises_first, always_raises_raise.
      - intros r evs [He ->]. repeat split; simpl; try (easy || lia). }
  eapply emits_bind;
    [apply emits_ret with (Q := fun r evs => r = Ok wrapper /\ evs = []);
     split; reflexivity | | intros e evs [[=] _]].
  intros wi evs0 [_ ->]. cbn [app].
  eapply emits_bind; [apply scale_font_fixed_loads | |].
  2:{ intros e evs (Hf & Hd & Hl). repeat split; eauto.
      - destruct Hl as [->|(px & _ & ->)]; simpl; lia.
      - destruct Hl as [Hl|(px & Hpx & Hl)]; rewrite Hl in H;
          [destruct H | destruct H as [<-|[]]]; reflexivity.
      - destruct Hl as [Hl|(px & Hpx & Hl)]; rewrite Hl in H;
          [destruct H | destruct H as [<-|[]]]. left. exact Hpx. }
  intros [[[fnt width] height] bbox] evs1 (Hf1 & Hd1 & Hl1).
  assert (Hcomb : forall evs2,
    files_written evs2 = [] /\ dirs_made evs2 = [] /\
    (fonts_loaded evs2 = [] \/
     exists px, pixel_size size (PyNum.PFloat full) = Ok px /\
                fonts_loaded evs2 = [(ttf_file self, px)]) ->
    files_written (evs1 ++ evs2)%list = [] /\
    dirs_made (evs1 ++ evs2)%list = [] /\
    (List.length (fonts_loaded (evs1 ++ evs2)%list) <= 2)%nat /\
    forall p, In p (fonts_loaded (evs1 ++ evs2)%list) ->
      fst p = ttf_file self /\
      (pixel_size size (PyNum.PFloat (PyNum.fdiv full PyNum.f_2)) = Ok (snd p)
       \/ pixel_size size (PyNum.PFloat full) = Ok (snd p))).
  { intros evs2 (Hf2 & Hd2 & Hl2).
    rewrite files_written_app, dirs_made_app, fonts_loaded_app, Hf1, Hd1, Hf2, Hd2.
    repeat split.
    - rewrite List.length_app.
      destruct Hl1 as [->|(px1 & _ & ->)], Hl2 as [->|(px2 & _ & ->)];
        simpl; lia.
    - apply in_app_or in H.
      destruct H as [H|H];
        [destruct Hl1 as [Hl|(px & Hpx & Hl)]
        | destruct Hl2 as [Hl|(px & Hpx & Hl)]];
        rewrite Hl in H; [destruct H | destruct H as [<-|[]] | destruct H
                         | destruct H as [<-|[]]]; reflexivity.
    - apply in_app_or in H.
      destruct H as [H|H];
        [destruct Hl1 as [Hl|(px & Hpx & Hl)]
        | destruct Hl2 as [Hl|(px & Hpx & Hl)]];
        rewrite Hl in H; [destruct H | destruct H as [<-|[]] | destruct H
                         | destruct H as [<-|[]]]; [left | right]; exact Hpx. }
  eapply emits_bind; [apply scale_font_fixed_loads | |].
  2:{ intros e evs2 H2. split; [eauto|]. now apply Hcomb. }
  intros [[[fnt2 width2] height2] bbox2] evs2 H2.
  eapply emits_weaken; [apply always_raises_emits, with_wrapper_tail_raises|].
  intros r evs3 [He ->]. split; [exact He|].
  rewrite app_nil_r. now apply Hcomb.
Qed.

(** C2. [export_icon_with_wrapper] never gets to its last lines: whatever
    the arguments and the rasteriser, the call raises, and it has neither
    made the export directory nor written a file. *)
Theorem export_icon_with_wrapper_writes_nothing (fuel : nat) (icon : string)
    (size : Z) (wrapper_icon : option string) (color_ : string)
    (scale : scale_arg) (filename : option string) (export_dir : string)
    (w : world) :
  exists e evs,
    with_wrapper fuel icon size wrapper_icon color_ scale filename export_dir w
    = Some (Raise e, (w ++ evs)%list) /\
    files_written evs = [] /\ dirs_made evs = [].
Proof.
  destruct (with_wrapper_emits fuel icon size wrapper_icon color_ scale
              filename export_dir w) as (r & evs & E & [e ->] & Hf & Hd & _).
  now exists e, evs.
Qed.

(** C1. [export_icon] without a wrapper icon calls
    [export_icon_with_wrapper] and leaves [wrapper_icon] out: the call
    raises [TypeError] and nothing has happened, no file is written. *)
Theorem export_icon_without_wrapper_raises (fuel : nat) (icon : string)
    (size : Z) (color_ : string) (scale : scale_arg)
    (filename : option string) (export_dir : string) (w : world) :
  export_icon truetype_error textsize getbbox fs self
    fuel icon size color_ scale filename export_dir "" w
  = Some (Raise TypeError, w).
Proof. reflexivity. Qed.

End ExportFacts.


(** ** The loop without a cap *)

Lemma auto_loop_S (te : string -> Z -> option py_exn)
    (ts : uchar -> font -> Z * Z) (self : IconFont) (fuel : nat)
    (icon : string) (size iteration : Z) (factor : PyNum.num) (fnt : font) :
  auto_loop te ts self (S fuel) icon size iteration factor fnt
  = (c <- icon_char self icon ;;
     ' (width, height) <- draw_textsize ts c fnt ;;
     let dim := Z.max width height in
     if dim >? size then
       q <- lift (PyNum.int_truediv (size * size) dim) ;;
       x <- lift (PyNum.mul (PyNum.PFloat q) factor) ;;
       px <- lift (PyNum.to_int x) ;;
       fnt' <- ImageFont_truetype te (ttf_file self) px ;;
       let iteration := iteration + 1 in
       factor' <- (if iteration mod 2 =? 0
                   then lift (PyNum.mul factor (PyNum.PFloat PyNum.f_0_99))
                   else ret factor) ;;
       auto_loop te ts self fuel icon size iteration factor' fnt'
     else ret (fnt, width, height))%py.
Proof. reflexivity. Qed.

Lemma mul_float_l (q : PyNum.float) (factor : PyNum.num) (x : PyNum.float) :
  PyNum.to_float factor = Ok x ->
  PyNum.mul (PyNum.PFloat q) factor = Ok (PyNum.PFloat (PyNum.fmul q x)).
Proof. intros H. unfold PyNum.mul. now rewrite H. Qed.

Lemma mul_float_r (factor : PyNum.num) (c x : PyNum.float) :
  PyNum.to_float factor = Ok x ->
  PyNum.mul factor (PyNum.PFloat c) = Ok (PyNum.PFloat (PyNum.fmul x c)).
Proof. intros H. unfold PyNum.mul. destruct factor; now rewrite H. Qed.

Lemma damps_step (q : PyNum.float) (n : nat) (x : PyNum.float) :
  damps q n x = true ->
  renders q x = true /\
  exists m, damps q m (PyNum.fmul x PyNum.f_0_99) = true.
Proof.
  intros H. destruct n as [|n]; cbn [damps] in H;
    apply andb_prop in H as [Hr H]; (split; [exact Hr|]).
  - exists O. apply PyNumFacts.same_eq in H. rewrite H.
    cbn [damps]. rewrite Hr. cbn [andb]. rewrite H.
    destruct x as [[]|[]| |[] m e]; simpl;
      rewrite ?Pos.eqb_refl, ?Z.eqb_refl; reflexivity.
  - now exists n.
Qed.

Section NoCap.

Variable truetype_error : string -> Z -> option py_exn.
Variable textsize : uchar -> font -> Z * Z.
Variable getbbox : image -> option box.
Variable self : IconFont.

Variable icon : string.
Variable c : uchar.
Variables size dim : Z.
Variable q : PyNum.float.

(** The glyph of [icon] measures [dim] on its larger side with every font,
    [dim] is above [size], and every font loads. *)
Hypothesis Hicon : Dict.get (css_icons self) icon = Some c.
Hypothesis Hdim :
  forall fnt, Z.max (fst (textsize c fnt)) (snd (textsize c fnt)) = dim.
Hypothesis Hbig : dim > size.
Hypothesis Hload : forall file px, truetype_error file px = None.
Hypothesis Hq : PyNum.int_truediv (size * size) dim = Ok q.

(** No pass leaves the loop: each one re-renders and starts the next. *)
Lemma unfit_loop_never_ends (fuel : nat) :
  forall iteration factor fnt w,
    (exists x n, PyNum.to_float factor = Ok x /\ damps q n x = true) ->
    auto_loop truetype_error textsize self fuel icon size
      iteration factor fnt w = None.
Proof.
  induction fuel as [|fuel IH]; intros iteration factor fnt w (x & n & Hx & Hn);
    [reflexivity|].
  destruct (damps_step _ _ _ Hn) as [Hr (m & Hm)].
  unfold renders in Hr.
  destruct (PyNum.int_of_float (PyNum.fmul q x)) as [px|] eqn:Epx;
    [clear Hr | discriminate].
  rewrite auto_loop_S.
  cbv beta iota zeta delta [bind ret lift draw_textsize emit icon_char
                            ImageFont_truetype].
  rewrite Hicon. cbv beta iota.
  specialize (Hdim fnt). destruct (textsize c fnt) as [wd ht].
  cbn [fst snd] in Hdim. cbv beta iota. rewrite Hdim.
  replace (dim >? size) with true
    by (symmetry; rewrite Z.gtb_ltb; apply Z.ltb_lt; lia).
  rewrite Hq. cbv beta iota.
  rewrite (mul_float_l _ _ _ Hx). cbv beta iota delta [PyNum.to_int].
  rewrite Epx. cbv beta iota. rewrite Hload. cbv beta iota.
  destruct ((iteration + 1) mod 2 =? 0).
  - rewrite (mul_float_r _ _ _ Hx). apply IH.
    exists (PyNum.fmul x PyNum.f_0_99), m. split; [reflexivity | exact Hm].
  - apply IH. exists x, n. split; assumption.
Qed.

Lemma unfit_scale_font_never_ends (n : nat) :
  0 <= size ->
  damps q n PyNum.f_1 = true ->
  forall fuel ttf w,
    scale_font truetype_error textsize getbbox self fuel ttf icon size Auto w
    = None.
Proof.
  intros Hs Hn fuel ttf w. unfold scale_font.
  cbv beta iota zeta delta [bind Image_new icon_char draw_textsize emit ret
                            raise lift ImageFont_truetype pixel_size
                            PyNum.mul PyNum.to_int rbind].
  replace (size <? 0) with false by (symmetry; apply Z.ltb_ge; lia).
  cbn [orb]. rewrite Hload, Hicon. cbv beta iota.
  destruct (textsize c (Font ttf (size * 1))) as [wd ht]. cbv beta iota.
  rewrite unfit_loop_never_ends; [reflexivity|].
  exists PyNum.f_1, n. split; [reflexivity | exact Hn].
Qed.

End NoCap.

(** C8, amended. The loop of [scale_font] carries no cap on its passes and
    no abort of its own: it goes on until a pass measures
    [max(width, height) <= size] or a call raises.  For a glyph whose larger
    side is [dim > size] with every font, a rasteriser that loads every
    font, and damped pixel sizes [int(size * size / dim * factor)] that
    stay computable down to the factor at which the damping settles,
    [scale_font] with [scale='auto'] is still running after any number of
    passes: it returns nothing and raises nothing. *)
Theorem scale_font_auto_runs_while_unfit
    (truetype_error : string -> Z -> option py_exn)
    (textsize : uchar -> font -> Z * Z) (getbbox : image -> option box)
    (self : IconFont) (icon : string) (c : uchar) (size dim : Z)
    (q : PyNum.float) (n : nat) :
  0 <= size ->
  Dict.get (css_icons self) icon = Some c ->
  (forall fnt, Z.max (fst (textsize c fnt)) (snd (textsize c fnt)) = dim) ->
  dim > size ->
  (forall file px, truetype_error file px = None) ->
  PyNum.int_truediv (size * size) dim = Ok q ->
  damps q n PyNum.f_1 = true ->
  forall fuel ttf w,
    scale_font truetype_error textsize getbbox self fuel ttf icon size Auto w
    = None.
Proof.
  intros Hs Hicon Hdim Hbig Hload Hq Hn.
  now apply (unfit_scale_font_never_ends truetype_error textsize getbbox self
               icon c size dim q Hicon Hdim Hbig Hload Hq n).
Qed.

(** The glyph of 151 by 151 pixels against a size of 100. *)
Lemma scale_font_auto_runs_while_unfit_witness :
  Demo.stuck 61698 (Font "icons.ttf" 100) = (151, 151) /\
  scale_font Demo.loads Demo.stuck Demo.blank_bbox Demo.icon_font
    (1000 * 1000) "other.ttf" "user" 100 Auto [] = None.
Proof.
  split; [reflexivity|].
  apply (scale_font_auto_runs_while_unfit Demo.loads Demo.stuck
           Demo.blank_bbox Demo.icon_font "user" 61698 100 151
           (PyNum.fdiv (PyNum.raw (100 * 100)) (PyNum.raw 151))
           (74 * 1000)%nat).
  - lia.
  - reflexivity.
  - intros fnt. reflexivity.
  - lia.
  - intros file px. reflexivity.
  - reflexivity.
  - vm_compute. reflexivity.
Defined.

(** C8 as stated fails: on a glyph that measures 151 by 151 pixels at every
    pixel size, the loop of [scale_font] at [size = 150] is still running
    after any number of passes; nothing caps it, and nothing is raised. *)
Lemma auto_scale_loop_has_no_cap :
  Demo.stuck 61697 (Font "icons.ttf" 150) = (151, 151) /\
  forall fuel : nat,
    scale_font Demo.loads Demo.stuck Demo.blank_bbox Demo.icon_font
      fuel "icons.ttf" "home" 150 Auto [] = None.
Proof.
  split; [reflexivity|].
  intros fuel.
  apply (unfit_scale_font_never_ends Demo.loads Demo.stuck Demo.blank_bbox
           Demo.icon_font "home" 61697 150 151 Demo.stuck_quotient)
    with (n := (74 * 1000)%nat).
  - reflexivity.
  - intros fnt. reflexivity.
  - lia.
  - intros file px. reflexivity.
  - reflexivity.
  - lia.
  - vm_compute. reflexivity.
Qed.

(** ** The wrapper path and the icon names *)

(** C10. Both calls of [scale_font] in [export_icon_with_wrapper] get a
    number, [full_scale / 2] and [full_scale], and ['auto'] is read as [1.0]:
    the call does what it does with that fixed scale and no pass of the
    fitting loop.  It loads at most two fonts, each at the pixel size of its
    fixed scale, and never a font of a corrected size; so with ['auto'] a
    glyph may be measured larger than the requested size and stay so: here
    the wrapper glyph, 150 by 160 pixels for a size of 150. *)
Theorem wrapper_path_never_autofits
    (truetype_error : string -> Z -> option py_exn)
    (textsize : uchar -> font -> Z * Z) (getbbox : image -> option box)
    (fs : file_system) (self : IconFont)
    (fuel : nat) (icon : string) (size : Z) (wrapper_icon : option string)
    (color_ : string) (scale : scale_arg) (filename : option string)
    (export_dir : string) (w : world) :
  let full := match scale with Auto => PyNum.f_1 | Fixed f => f end in
  export_icon_with_wrapper truetype_error textsize getbbox fs self
    fuel icon size wrapper_icon color_ scale filename export_dir w
  = export_icon_with_wrapper truetype_error textsize getbbox fs self
      0 icon size wrapper_icon color_ (Fixed full) filename export_dir w
  /\ (exists r evs,
        export_icon_with_wrapper truetype_error textsize getbbox fs
          self fuel icon size wrapper_icon color_ scale filename export_dir w
        = Some (r, (w ++ evs)%list) /\
        (List.length (fonts_loaded evs) <= 2)%nat /\
        forall p, In p (fonts_loaded evs) ->
          fst p = ttf_file self /\
          (pixel_size size (PyNum.PFloat (PyNum.fdiv full PyNum.f_2))
           = Ok (snd p)
           \/ pixel_size size (PyNum.PFloat full) = Ok (snd p)))
  /\ (export_icon_with_wrapper Demo.loads Demo.tall Demo.blank_bbox
        Demo.no_dir Demo.icon_font 0 "home" 150 (Some "user") "black" Auto
        None "exported" []
      = Some (Raise TypeError,
              [EvTruetype "icons.ttf" 75;
               EvTextsize 61697 (Font "icons.ttf" 75);
               EvTruetype "icons.ttf" 150;
               EvTextsize 61698 (Font "icons.ttf" 150)])
      /\ Demo.tall 61698 (Font "icons.ttf" 150) = (150, 160)
      /\ Z.max 150 160 > 150).
Proof.
  intros full. split; [|split].
  - subst full. destruct scale; reflexivity.
  - destruct (with_wrapper_emits truetype_error textsize getbbox fs
                self fuel icon size wrapper_icon color_ scale filename
                export_dir w) as (r & evs & E & _ & _ & _ & Hlen & Hin).
    exists r, evs. auto.
  - repeat split.
Qed.

(** The wrapper path on a name that the table does not have: the font of the
    inner icon is loaded, and the lookup raises [KeyError]. *)
Lemma with_wrapper_unknown_icon
    (truetype_error : string -> Z -> option py_exn)
    (textsize : uchar -> font -> Z * Z) (getbbox : image -> option box)
    (fs : file_system) (self : IconFont)
    (fuel : nat) (icon wrapper : string) (size px : Z)
    (color_ : string) (scale : scale_arg) (filename : option string)
    (export_dir : string) (w : world) :
  let full := match scale with Auto => PyNum.f_1 | Fixed f => f end in
  0 <= size ->
  Dict.get (css_icons self) icon = None ->
  pixel_size size (PyNum.PFloat (PyNum.fdiv full PyNum.f_2)) = Ok px ->
  truetype_error (ttf_file self) px = None ->
  export_icon_with_wrapper truetype_error textsize getbbox fs self
    fuel icon size (Some wrapper) color_ scale filename export_dir w
  = Some (Raise KeyError, (w ++ [EvTruetype (ttf_file self) px])%list).
Proof.
  intros full Hs Hicon Hpx Hload.
  cbv beta iota zeta delta [export_icon_with_wrapper required scale_font bind
    ret Image_new lift ImageFont_truetype icon_char emit raise].
  fold full. replace (size <? 0) with false by (symmetry; apply Z.ltb_ge; lia).
  cbn [orb]. rewrite Hpx. cbv beta iota. rewrite Hload, Hicon. reflexivity.
Qed.

Example unknown_icon_with_wrapper :
  export_icon Demo.loads Demo.tall Demo.blank_bbox Demo.no_dir Demo.icon_font
    0 "missing" 150 "black" Auto None "exported" "user" []
  = Some (Raise KeyError, [EvTruetype "icons.ttf" 75]).
Proof. reflexivity. Qed.

Example unknown_wrapper_icon :
  export_icon Demo.loads Demo.tall Demo.blank_bbox Demo.no_dir Demo.icon_font
    0 "home" 150 "black" Auto None "exported" "missing" []
  = Some (Raise KeyError,
          [EvTruetype "icons.ttf" 75; EvTextsize 61697 (Font "icons.ttf" 75);
           EvTruetype "icons.ttf" 150]).
Proof. reflexivity. Qed.

(** C9. Asked for a name that the table does not have, and given no wrapper
    icon, [export_icon] raises [TypeError], not the [KeyError] of the lookup:
    the call of [export_icon_with_wrapper] fails before any name is looked
    up.  Nothing has been written. *)
Theorem export_icon_unknown_name_raises_TypeError :
  Dict.get (css_icons Demo.icon_font) "missing" = None /\
  export_icon Demo.loads Demo.tall Demo.blank_bbox Demo.no_dir Demo.icon_font
    0 "missing" 150 "black" Auto None "exported" "" []
  = Some (Raise TypeError, []).
Proof. split; reflexivity. Qed.

(** The two ways [export_icon_with_wrapper] ends on names that the table
    has: on the canvas that PIL reports as empty, [bbox] is [None] and its
    subscript raises; with a box, [org_size] is unbound. *)
Example with_wrapper_on_blank_bbox :
  export_icon_with_wrapper Demo.loads Demo.tall Demo.blank_bbox Demo.no_dir
    Demo.icon_font 0 "home" 150 (Some "user") "black" (Fixed PyNum.f_1)
    None "exported" []
  = Some (Raise TypeError,
          [EvTruetype "icons.ttf" 75; EvTextsize 61697 (Font "icons.ttf" 75);
           EvTruetype "icons.ttf" 150; EvTextsize 61698 (Font "icons.ttf" 150)]).
Proof. reflexivity. Qed.

Example with_wrapper_on_some_bbox :
  export_icon_with_wrapper Demo.loads Demo.tall Demo.some_bbox Demo.no_dir
    Demo.icon_font 0 "home" 150 (Some "user") "black" (Fixed PyNum.f_1)
    None "exported" []
  = Some (Raise NameError,
          [EvTruetype "icons.ttf" 75; EvTextsize 61697 (Font "icons.ttf" 75);
           EvTruetype "icons.ttf" 150; EvTextsize 61698 (Font "icons.ttf" 150)]).
Proof. reflexivity. Qed.

(** [export_icon_no_wrapper] reads [ttf], a name it does not bind. *)
Example no_wrapper_raises_NameError :
  export_icon_no_wrapper Demo.loads Demo.tall Demo.blank_bbox Demo.no_dir
    Demo.icon_font 5 "home" 150 "black" Auto None "exported" []
  = Some (Raise NameError, []).
Proof. reflexivity. Qed.

(** On the same glyph, a rasteriser that refuses the pixel size 0 ends the
    loop by its own error, at the 998th font. *)
Example stuck_loop_ends_when_a_font_is_refused :
  match scale_font Demo.loads_positive Demo.stuck Demo.blank_bbox
          Demo.icon_font 1000 "icons.ttf" "home" 150 Auto [] with
  | Some (Raise e, w) => Some (e, List.length (fonts_loaded w))
  | _ => None
  end = Some (ValueError, 998%nat).
Proof. vm_compute. reflexivity. Qed.

(** The scenario of the two icons, and [int] against the floor. *)
Example load_css_home_user :
  load_css Hex.int16 false Demo.home_user
  = Ok ([("home", 61697); ("user", 61698)], "icon-").
Proof. reflexivity. Qed.

(** The product is the float product: the float nearest to 0.3 is below
    3/10, and ten times it rounds to 3.0, so the pixel size is 3. *)
Example pixel_size_of_rounded_product :
  pixel_size 10 (PyNum.PFloat (PyNum.fdiv (PyNum.raw 3) (PyNum.raw 10))) = Ok 3
  /\ PyNum.fdiv (PyNum.raw 3) (PyNum.raw 10)
     = S754_finite false 5404319552844595 (-54)
  /\ 10 * 5404319552844595 < 3 * 2 ^ 54.
Proof. repeat split. Qed.

Example int_truncates_towards_zero :
  PyNum.int_of_float (S754_finite true 3 (-1)) = Ok (-1) /\
  PyNum.floor (S754_finite true 3 (-1)) = Some (-2).
Proof. split; reflexivity. Qed.


(** * Further properties of the icon table builder *)

Module PrefixFacts.
Import PyStr.

Lemma prefix_iff (p s : string) :
  String.prefix p s = true <-> exists r, s = p ++ r.
Proof.
  split.
  - intros H. exists (drop (String.length p) s). now apply PyStrFacts.prefix_split.
  - intros [r ->]. apply PyStrFacts.prefix_app.
Qed.

Lemma prefix_nil (s : string) : String.prefix "" s = true.
Proof. now destruct s. Qed.

Lemma prefix_cons (c d : ascii) (p s : string) :
  String.prefix (String c p) (String d s) = true <->
  c = d /\ String.prefix p s = true.
Proof.
  simpl. destruct (Ascii.ascii_dec c d) as [->|Hne].
  - tauto.
  - split; [discriminate | intros [E _]; contradiction].
Qed.

Lemma prefix_refl (s : string) : String.prefix s s = true.
Proof.
  induction s as [|c s IH]; [reflexivity|]. now apply prefix_cons.
Qed.

Lemma prefix_antisym (a b : string) :
  String.prefix a b = true -> String.prefix b a = true -> a = b.
Proof.
  revert b; induction a as [|c a IH]; intros [|d b]; simpl; try discriminate;
    try reflexivity.
  intros H1 H2. apply prefix_cons in H1 as [-> H1].
  apply prefix_cons in H2 as [_ H2]. f_equal. now apply IH.
Qed.

Lemma commonprefix_l (a b : string) :
  String.prefix (commonprefix a b) a = true.
Proof.
  revert b; induction a as [|x a IH]; intros [|y b]; simpl; try reflexivity.
  destruct (Ascii.eqb_spec x y) as [->|Hne]; [|reflexivity].
  apply prefix_cons. auto.
Qed.

Lemma commonprefix_r (a b : string) :
  String.prefix (commonprefix a b) b = true.
Proof.
  revert b; induction a as [|x a IH]; intros [|y b]; simpl; try reflexivity.
  destruct (Ascii.eqb_spec x y) as [->|Hne]; [|reflexivity].
  apply prefix_cons. auto.
Qed.

Lemma commonprefix_greatest (q a b : string) :
  String.prefix q a = true -> String.prefix q b = true ->
  String.prefix q (commonprefix a b) = true.
Proof.
  revert a b; induction q as [|c q IH]; intros a b Ha Hb;
    [apply prefix_nil|].
  destruct a as [|x a]; [discriminate|]. destruct b as [|y b]; [discriminate|].
  apply prefix_cons in Ha as [-> Ha]. apply prefix_cons in Hb as [-> Hb].
  simpl commonprefix. rewrite Ascii.eqb_refl.
  apply prefix_cons. auto.
Qed.

Lemma prefix_trans (a b c : string) :
  String.prefix a b = true -> String.prefix b c = true ->
  String.prefix a c = true.
Proof.
  rewrite !prefix_iff. intros [r ->] [r' ->]. exists (r ++ r').
  induction a as [|x a IH]; simpl; [reflexivity | now rewrite IH].
Qed.

End PrefixFacts.

Section LoadCssExtras.

Variable int16 : string -> option Z.
Import Dict.

Lemma icon_selectors_In (css : stylesheet) (s : string) :
  In s (icon_selectors css) <->
  exists selector decls,
    In (RuleSet selector decls) css /\
    Re.is_icon_match selector = true /\ s = PyStr.drop 1 selector.
Proof.
  induction css as [|[selector decls|] css IH]; simpl.
  - split; [intros [] | intros (? & ? & [] & _)].
  - destruct (Re.is_icon_match selector) eqn:E; simpl; rewrite IH; split.
    + intros [<-|(sel & d & Hin & Hm & ->)]; [exists selector, decls; auto|].
      exists sel, d. auto.
    + intros (sel & d & [[= <- <-]|Hin] & Hm & ->); [now left|].
      right. exists sel, d. auto.
    + intros (sel & d & Hin & Hm & ->). exists sel, d. auto.
    + intros (sel & d & [[= <- <-]|Hin] & Hm & ->); [congruence|].
      exists sel, d. auto.
  - rewrite IH. split.
    + intros (sel & d & Hin & H). exists sel, d. auto.
    + intros (sel & d & [[=]|Hin] & H). exists sel, d. auto.
Qed.

Lemma load_rules_prefix (css : stylesheet) :
  forall icons cp icons' cp' seen,
    load_rules int16 (icons, cp) css = Ok (icons', cp') ->
    longest_common_prefix cp seen ->
    longest_common_prefix cp' (seen ++ icon_selectors css)%list.
Proof.
  induction css as [|[selector decls|] css IH];
    intros icons cp icons' cp' seen H Hinv;
    cbn [load_rules load_rule rbind] in H.
  - injection H as <- <-. simpl. now rewrite app_nil_r.
  - cbn [icon_selectors]. destruct (Re.is_icon_match selector);
      cbn [negb rbind] in H.
    + destruct (store_matches int16 _ decls icons) as [icons1|];
        cbn [rbind] in H; [|discriminate].
      replace (seen ++ PyStr.drop 1 selector :: icon_selectors css)%list
        with ((seen ++ [PyStr.drop 1 selector]) ++ icon_selectors css)%list
        by (now rewrite <- app_assoc).
      eapply IH; [exact H|]. clear H IH.
      set (s0 := PyStr.drop 1 selector).
      destruct cp as [p|]; simpl in Hinv |- *.
      * destruct Hinv as (Hne & Hall & Hmax). split; [|split].
        -- now destruct seen.
        -- intros s Hs. apply in_app_or in Hs as [Hs|[<-|[]]].
           ++ eapply PrefixFacts.prefix_trans;
                [apply PrefixFacts.commonprefix_l | now apply Hall].
           ++ apply PrefixFacts.commonprefix_r.
        -- intros q Hq. apply PrefixFacts.commonprefix_greatest.
           ++ apply Hmax. intros s Hs. apply Hq, in_or_app. now left.
           ++ apply Hq, in_or_app. right. now left.
      * subst seen. simpl. split; [discriminate|]. split.
        -- intros s [<-|[]]. apply PrefixFacts.prefix_refl.
        -- intros q Hq. apply Hq. now left.
    + eapply IH; eassumption.
  - discriminate.
Qed.

Lemma common_prefix_spec (keep : bool) (css : stylesheet)
    (t : dict uchar) (p : string) :
  load_css int16 keep css = Ok (t, p) ->
  (forall s, In s (icon_selectors css) -> String.prefix p s = true) /\
  (forall q, icon_selectors css <> [] ->
     (forall s, In s (icon_selectors css) -> String.prefix q s = true) ->
     String.prefix q p = true) /\
  (icon_selectors css = [] -> p = "").
Proof.
  intros H. apply load_css_inv in H as (icons & cp & E & _ & -> & _).
  apply (load_rules_prefix _ _ _ _ _ []) in E; [|reflexivity].
  simpl app in E. destruct cp as [p|]; simpl in E.
  - destruct E as (Hne & Hall & Hmax). split; [exact Hall|]. split.
    + intros q _ Hq. now apply Hmax.
    + intros Hnil. contradiction.
  - rewrite E. split; [intros s []|]. split.
    + intros q Hne. contradiction.
    + reflexivity.
Qed.

(** X1. The common prefix that [load_css] returns starts every icon
    selector (the selector text after its dot), it is the longest text that
    does (every text that starts them all starts it), and it is empty when
    the stylesheet has no icon rule. *)
Theorem load_css_prefix_is_longest_common (keep : bool) (css : stylesheet)
    (t : dict uchar) (p : string) :
  load_css int16 keep css = Ok (t, p) ->
  (forall s, In s (icon_selectors css) -> String.prefix p s = true) /\
  (forall q, icon_selectors css <> [] ->
     (forall s, In s (icon_selectors css) -> String.prefix q s = true) ->
     String.prefix q p = true) /\
  (icon_selectors css = [] -> p = "").
Proof. apply common_prefix_spec. Qed.

Lemma load_rules_keys (css : stylesheet) :
  forall icons cp icons' cp',
    load_rules int16 (icons, cp) css = Ok (icons', cp') ->
    forall k, In k (keys icons') <-> In k (keys icons) \/ icon_name css k.
Proof.
  unfold icon_name.
  induction css as [|[selector decls|] css IH];
    intros icons cp icons' cp' H k;
    cbn [load_rules load_rule rbind] in H.
  - injection H as <- <-. split; [auto|].
    intros [H|(? & ? & [] & _)]; exact H.
  - destruct (Re.is_icon_match selector) eqn:Em;
      cbn [negb rbind] in H.
    + destruct (store_matches int16 _ decls icons) as [icons1|] eqn:E1;
        cbn [rbind] in H; [|discriminate].
      rewrite (IH _ _ _ _ H k).
      apply store_matches_keys in E1 as [_ Hk]. rewrite Hk. split.
      * intros [[Hin|[Hn Hc]]|(sel & d & Hin & Hm & Hf & Hc)]; auto.
        -- right. exists selector, decls. simpl. auto.
        -- right. exists sel, d. simpl. auto.
      * intros [Hin|(sel & d & [[= <- <-]|Hin] & Hm & Hf & Hc)]; auto.
        right. exists sel, d. auto.
    + rewrite (IH _ _ _ _ H k). split.
      * intros [Hin|(sel & d & Hin & Hm & Hf & Hc)]; auto.
        right. exists sel, d. simpl. auto.
      * intros [Hin|(sel & d & [[= <- <-]|Hin] & Hm & Hf & Hc)]; auto;
          [congruence|]. right. exists sel, d. auto.
  - discriminate.
Qed.

(** The keys of the table, whatever [keep_prefix] is. *)
Lemma load_css_keys (keep : bool) (css : stylesheet) (t : dict uchar)
    (p : string) (k : string) :
  load_css int16 keep css = Ok (t, p) ->
  In k (keys t) <->
  if negb keep && (0 <? Z.of_nat (String.length p))
  then exists n, icon_name css n /\ k = PyStr.drop (String.length p) n
  else icon_name css k.
Proof.
  intros H. apply load_css_inv in H as (icons & cp & E & _ & _ & ->).
  rewrite DictFacts.sorted_In.
  assert (Hk : forall n, In n (keys icons) <-> icon_name css n).
  { intros n. rewrite (load_rules_keys _ _ _ _ _ E n). simpl. tauto. }
  destruct (negb keep && _).
  - rewrite remove_prefix_In. split; intros (n & Hn & ->); exists n;
      (split; [|reflexivity]); now apply Hk.
  - apply Hk.
Qed.

(** X2. With [keep_prefix], the keys of the table are exactly the icon
    names of the stylesheet: the groups that [is_icon] finds in the
    selectors of the icon rules that carry a [content] declaration. *)
Theorem load_css_keeps_icon_names (css : stylesheet) (t : dict uchar)
    (p k : string) :
  load_css int16 true css = Ok (t, p) ->
  In k (keys t) <-> icon_name css k.
Proof. intros H. now rewrite (load_css_keys _ _ _ _ _ H). Qed.

End LoadCssExtras.

Module OrderFacts.

Lemma ltb_irrefl (a : string) : String.ltb a a = false.
Proof.
  unfold String.ltb. pose proof (String.compare_antisym a a) as H.
  destruct (String.compare a a); try reflexivity; discriminate.
Qed.

Lemma ltb_asym (a b : string) :
  String.ltb a b = true -> String.ltb b a = true -> False.
Proof.
  unfold String.ltb. rewrite (String.compare_antisym b a).
  destruct (String.compare a b); simpl; discriminate.
Qed.

(** Two strictly ascending lists with the same elements are the same. *)
Lemma ascending_unique (l l' : list string) :
  StronglySorted (fun a b => String.ltb a b = true) l ->
  StronglySorted (fun a b => String.ltb a b = true) l' ->
  (forall k, In k l <-> In k l') -> l = l'.
Proof.
  intros Hl. revert l'. induction Hl as [|x l Hl IH Hx]; intros l' Hl' Hin.
  - destruct l' as [|y l']; [reflexivity|].
    exfalso. apply (Hin y). now left.
  - destruct Hl' as [|y l' Hl' Hy].
    + exfalso. apply (Hin x). now left.
    + rewrite Forall_forall in Hx, Hy.
      assert (E : x = y).
      { destruct (proj1 (Hin x) (or_introl eq_refl)) as [E|Hx'];
          [now symmetry|].
        destruct (proj2 (Hin y) (or_introl eq_refl)) as [E|Hy']; [exact E|].
        exfalso. apply (ltb_asym x y); auto. }
      subst y. f_equal. apply IH; [exact Hl'|].
      intros k. split; intros Hk.
      * destruct (proj1 (Hin k) (or_intror Hk)) as [<-|H]; [|exact H].
        exfalso. specialize (Hx _ Hk). now rewrite ltb_irrefl in Hx.
      * destruct (proj2 (Hin k) (or_intror Hk)) as [<-|H]; [|exact H].
        exfalso. specialize (Hy _ Hk). now rewrite ltb_irrefl in Hy.
Qed.

End OrderFacts.

Section LoadCssOrder.

Variable int16 : string -> option Z.
Import Dict.

Lemma icon_name_perm (css css' : stylesheet) (k : string) :
  Permutation css css' -> icon_name css k -> icon_name css' k.
Proof.
  intros Hp (sel & d & Hin & H). exists sel, d. split; [|exact H].
  eapply Permutation_in; eassumption.
Qed.

Lemma icon_selectors_perm (css css' : stylesheet) (s : string) :
  Permutation css css' ->
  In s (icon_selectors css) -> In s (icon_selectors css').
Proof.
  intros Hp. rewrite !icon_selectors_In. intros (sel & d & Hin & H).
  exists sel, d. split; [|exact H]. eapply Permutation_in; eassumption.
Qed.

Lemma prefix_of_perm (keep : bool) (css css' : stylesheet)
    (t t' : dict uchar) (p p' : string) :
  Permutation css css' ->
  load_css int16 keep css = Ok (t, p) ->
  load_css int16 keep css' = Ok (t', p') ->
  String.prefix p p' = true.
Proof.
  intros Hp H H'.
  destruct (common_prefix_spec int16 _ _ _ _ H) as (Hall & _ & Hnil).
  destruct (common_prefix_spec int16 _ _ _ _ H') as (_ & Hmax' & Hnil').
  destruct (icon_selectors css') as [|s0 l0] eqn:E'.
  - assert (E : icon_selectors css = []).
    { destruct (icon_selectors css) as [|s l] eqn:E; [reflexivity|].
      exfalso. assert (Hs : In s (icon_selectors css'))
        by (apply (icon_selectors_perm css); [exact Hp | rewrite E; now left]).
      now rewrite E' in Hs. }
    rewrite (Hnil E), (Hnil' eq_refl). reflexivity.
  - apply Hmax'; [discriminate|]. intros s Hs. apply Hall.
    apply (icon_selectors_perm css'); [now symmetry | now rewrite E'].
Qed.

Lemma keys_strictly_ascending (keep : bool) (css : stylesheet)
    (t : dict uchar) (p : string) :
  load_css int16 keep css = Ok (t, p) ->
  StronglySorted (fun a b => String.ltb a b = true) (keys t).
Proof.
  intros H. apply load_css_inv in H as (icons & cp & _ & Hn & _ & ->).
  apply DictFacts.strictly_sorted; [apply DictFacts.sorted_sorted|].
  apply DictFacts.sorted_NoDup.
  destruct (negb keep && _); [apply remove_prefix_NoDup | exact Hn].
Qed.

(** X3. The order of the rules changes neither the common prefix nor the
    keys of the table: two stylesheets with the same rules in another order,
    both loaded, give the same prefix and the same list of keys. *)
Theorem load_css_rule_order (keep : bool) (css css' : stylesheet)
    (t t' : dict uchar) (p p' : string) :
  Permutation css css' ->
  load_css int16 keep css = Ok (t, p) ->
  load_css int16 keep css' = Ok (t', p') ->
  p = p' /\ keys t = keys t'.
Proof.
  intros Hp H H'.
  assert (E : p = p').
  { apply PrefixFacts.prefix_antisym.
    - eapply prefix_of_perm; eassumption.
    - eapply prefix_of_perm; [symmetry; exact Hp | eassumption | eassumption]. }
  split; [exact E|]. subst p'.
  apply OrderFacts.ascending_unique.
  - eapply keys_strictly_ascending; eassumption.
  - eapply keys_strictly_ascending; eassumption.
  - intros k.
    rewrite (load_css_keys int16 _ _ _ _ k H), (load_css_keys int16 _ _ _ _ k H').
    destruct (negb keep && _).
    + split; intros (n & Hn & ->); exists n; (split; [|reflexivity]).
      * eapply icon_name_perm; eassumption.
      * eapply icon_name_perm; [symmetry|]; eassumption.
    + split; apply icon_name_perm; [|symmetry]; exact Hp.
Qed.

End LoadCssOrder.

Section LoadCssValues.

Variable int16 : string -> option Z.
Import Dict.

Lemma unichr_valid (n : Z) (c : uchar) : unichr n = Ok c -> valid_code_point c.
Proof.
  unfold unichr, valid_code_point.
  destruct ((0 <=? n) && (n <=? 1114111)) eqn:E.
  - intros [= <-]. apply andb_prop in E as [E1 E2].
    apply Z.leb_le in E1, E2. lia.
  - destruct ((-2147483648 <=? n) && (n <=? 2147483647)); discriminate.
Qed.

Lemma set_valid (d : dict uchar) (k : string) (v : uchar) :
  all_valid d -> valid_code_point v -> all_valid (set d k v).
Proof.
  unfold all_valid. induction d as [|[k' v'] d IH]; simpl; intros Hd Hv k0 v0.
  - intros [[= <- <-]|[]]. exact Hv.
  - destruct (String.eqb k' k); simpl.
    + intros [[= <- <-]|Hin]; [exact Hv | eapply Hd; right; exact Hin].
    + intros [[= <- <-]|Hin]; [eapply Hd; left; reflexivity|].
      eapply IH; [|exact Hv|exact Hin]. intros k1 v1 H1. eapply Hd. right.
      exact H1.
Qed.

Lemma store_content_valid (name : string) (decls : list declaration) :
  forall icons icons',
    store_content int16 name decls icons = Ok icons' ->
    all_valid icons -> all_valid icons'.
Proof.
  induction decls as [|d decls IH]; intros icons icons'; cbn [store_content].
  - now intros [= <-].
  - destruct (String.eqb (decl_name d) "content").
    + destruct (py_int16 int16 _) as [n|]; cbn [rbind]; [|discriminate].
      destruct (unichr n) as [c|] eqn:Ec; cbn [rbind]; [|discriminate].
      intros H Hv. eapply IH; [exact H|].
      apply set_valid; [exact Hv | eapply unichr_valid; exact Ec].
    + apply IH.
Qed.

Lemma store_matches_valid (names : list string) (decls : list declaration) :
  forall icons icons',
    store_matches int16 names decls icons = Ok icons' ->
    all_valid icons -> all_valid icons'.
Proof.
  induction names as [|name names IH]; intros icons icons'; cbn [store_matches].
  - now intros [= <-].
  - destruct (store_content int16 name decls icons) as [icons1|] eqn:E;
      cbn [rbind]; [|discriminate].
    intros H Hv. eapply IH; [exact H|]. eapply store_content_valid; eassumption.
Qed.

Lemma load_rules_valid (css : stylesheet) :
  forall icons cp icons' cp',
    load_rules int16 (icons, cp) css = Ok (icons', cp') ->
    all_valid icons -> all_valid icons'.
Proof.
  induction css as [|[selector decls|] css IH]; intros icons cp icons' cp' H;
    cbn [load_rules load_rule rbind] in H.
  - now injection H as <- <-.
  - destruct (Re.is_icon_match selector); cbn [negb rbind] in H.
    + destruct (store_matches int16 _ decls icons) as [icons1|] eqn:E;
        cbn [rbind] in H; [|discriminate].
      intros Hv. eapply IH; [exact H|]. eapply store_matches_valid; eassumption.
    + eapply IH; exact H.
  - discriminate.
Qed.

Lemma assign_all_valid (g : string -> string) (l : dict uchar) :
  forall acc, all_valid acc -> all_valid l -> all_valid (assign_all g acc l).
Proof.
  unfold assign_all. induction l as [|[n v] l IH]; intros acc Ha Hl; simpl;
    [exact Ha|].
  apply IH.
  - apply set_valid; [exact Ha|]. eapply Hl. left. reflexivity.
  - intros k0 v0 H0. eapply Hl. right. exact H0.
Qed.

(** X4. Every character of a table that [load_css] returns is a code point
    of Unicode, between 0 and 0x10FFFF. *)
Theorem load_css_values_are_code_points (keep : bool) (css : stylesheet)
    (t : dict uchar) (p k : string) (v : uchar) :
  load_css int16 keep css = Ok (t, p) ->
  In (k, v) t -> 0 <= v <= 1114111.
Proof.
  intros H Hin. apply load_css_inv in H as (icons & cp & E & _ & _ & ->).
  assert (Hv : all_valid icons).
  { eapply load_rules_valid; [exact E|]. intros ? ? []. }
  apply (Permutation_in _ (DictFacts.sorted_perm _)) in Hin.
  destruct (negb keep && _).
  - change (remove_prefix p icons)
      with (assign_all (fun n => PyStr.drop (String.length p) n) [] icons)
      in Hin.
    eapply (assign_all_valid _ icons []); [intros ? ? [] | exact Hv | exact Hin].
  - eapply Hv. exact Hin.
Qed.

(** A [content] declaration whose text is no hexadecimal number stops
    [store_content], whatever came before it in the rule. *)
Lemma store_content_unparseable (name : string) (decls : list declaration)
    (d : declaration) :
  In d decls -> decl_name d = "content" ->
  int16 (content_digits (decl_value d)) = None ->
  forall icons, exists e, store_content int16 name decls icons = Raise e.
Proof.
  intros Hin Hn Hbad. induction decls as [|d0 decls IH]; [destruct Hin|].
  intros icons. cbn [store_content].
  destruct Hin as [->|Hin].
  - rewrite Hn. cbn [String.eqb]. change (String.eqb "content" "content") with true.
    cbv iota. unfold content_digits in Hbad. unfold py_int16. rewrite Hbad.
    now exists ValueError.
  - destruct (String.eqb (decl_name d0) "content"); [|now apply IH].
    destruct (py_int16 int16 _) as [n|e]; cbn [rbind]; [|now exists e].
    destruct (unichr n) as [c|e]; cbn [rbind]; [|now exists e].
    now apply IH.
Qed.

Lemma finditer_nonempty (selector : string) :
  Re.is_icon_match selector = true -> Re.is_icon_finditer selector <> [].
Proof.
  unfold Re.is_icon_match, Re.is_icon_finditer.
  destruct selector as [|c s]; [discriminate|].
  cbn [Re.scan]. destruct (Re.match_here (String c s)) as [[g len]|];
    [discriminate | discriminate].
Qed.

(** X5. One icon rule with a [content] declaration that is no hexadecimal
    number makes the whole load fail: [load_css] raises and returns no
    table, whatever the other rules are. *)
Theorem load_css_unparseable_content (keep : bool) (css : stylesheet)
    (selector : string) (decls : list declaration) (d : declaration) :
  In (RuleSet selector decls) css ->
  Re.is_icon_match selector = true ->
  In d decls -> decl_name d = "content" ->
  int16 (content_digits (decl_value d)) = None ->
  exists e, load_css int16 keep css = Raise e.
Proof.
  intros Hin Hm Hd Hn Hbad.
  assert (H : forall st, exists e, load_rules int16 st css = Raise e).
  { induction css as [|r css IH]; [destruct Hin|]. intros st.
    cbn [load_rules]. destruct Hin as [->|Hin].
    - cbn [load_rule]. rewrite Hm. cbn [negb]. destruct st as [icons cp].
      destruct (Re.is_icon_finditer selector) as [|name names] eqn:Ef;
        [now apply finditer_nonempty in Hm|].
      cbn [store_matches].
      destruct (store_content_unparseable name decls d Hd Hn Hbad icons)
        as [e ->].
      now exists e.
    - destruct (load_rule int16 st r) as [st1|e]; cbn [rbind];
        [now apply IH | now exists e]. }
  unfold load_css. destruct (H ([], None)) as [e ->]. now exists e.
Qed.

(** X6. Rules of other classes are ignored entirely: a stylesheet of rule
    sets none of which is an icon rule loads as the empty table with the
    empty prefix, whatever their declarations are. *)
Theorem load_css_without_icon_rules (keep : bool) (css : stylesheet) :
  (forall r, In r css ->
     exists selector decls,
       r = RuleSet selector decls /\ Re.is_icon_match selector = false) ->
  load_css int16 keep css = Ok ([], "").
Proof.
  intros H.
  assert (E : load_rules int16 ([], None) css = Ok ([], None)).
  { induction css as [|r css IH]; [reflexivity|].
    destruct (H r (or_introl eq_refl)) as (sel & decls & -> & Hm).
    cbn [load_rules load_rule]. rewrite Hm. cbn [negb rbind].
    apply IH. intros r Hr. apply H. now right. }
  unfold load_css. rewrite E. cbn [rbind]. now rewrite andb_false_r.
Qed.

(** X7. [keep_prefix] changes neither the outcome of [load_css] nor the
    common prefix: the load raises with it exactly when it raises without
    it, with the same exception, and a load that returns does so with the
    same prefix. *)
Theorem load_css_keep_prefix_only_renames (css : stylesheet) :
  (forall e, load_css int16 true css = Raise e <->
             load_css int16 false css = Raise e) /\
  (forall p, (exists t, load_css int16 true css = Ok (t, p)) <->
             (exists t, load_css int16 false css = Ok (t, p))).
Proof.
  unfold load_css.
  destruct (load_rules int16 ([], None) css) as [[icons cp]|e0]; cbn [rbind].
  - split.
    + intros e. split; discriminate.
    + intros p. split; intros [t [= _ <-]]; eexists; reflexivity.
  - split.
    + intros e. tauto.
    + intros p. split; intros [t [=]].
Qed.

End LoadCssValues.

(** ** The two regular expressions *)

Module ReExtras.
Import PyStr Re.

Lemma take_drop (j : nat) (s : string) : take j s ++ drop j s = s.
Proof.
  revert s; induction j as [|j IH]; intros [|c s]; simpl; try reflexivity.
  now rewrite IH.
Qed.

Lemma last_before_Some (s : string) :
  forall j, last_before s = Some j ->
    one_line (take j s) = true /\ String.prefix ":before" (drop j s) = true.
Proof.
  induction s as [|c s IH]; intros j; cbn [last_before]; [discriminate|].
  destruct (Ascii.eqb c newline) eqn:Ec; [discriminate|].
  destruct (last_before s) as [i|].
  - intros [= <-]. destruct (IH i eq_refl) as [H1 H2].
    cbn [take drop one_line]. now rewrite Ec, H1.
  - destruct (String.prefix ":before" (String c s)) eqn:Ep; [|discriminate].
    intros [= <-]. split; [reflexivity | exact Ep].
Qed.

Lemma last_before_finds (name rest : string) :
  one_line name = true ->
  last_before (name ++ ":before" ++ rest) <> None.
Proof.
  induction name as [|c name IH]; intros H.
  - change ("" ++ ":before" ++ rest) with (String ":" ("before" ++ rest)).
    cbn [last_before].
    change (Ascii.eqb ":" newline) with false. cbv iota.
    destruct (last_before ("before" ++ rest)); [discriminate|].
    change (String ":" ("before" ++ rest)) with (":before" ++ rest).
    now rewrite PyStrFacts.prefix_app.
  - cbn [one_line] in H. apply andb_prop in H as [Hc Hn].
    apply negb_true_iff in Hc.
    change (String c name ++ ":before" ++ rest)
      with (String c (name ++ ":before" ++ rest)).
    cbn [last_before]. rewrite Hc.
    specialize (IH Hn). destruct (last_before (name ++ ":before" ++ rest));
      [cbv iota; discriminate | contradiction].
Qed.

(** X8. [is_icon] matches a selector exactly when it starts with a dot and
    has [:before] on the line of the dot: the selector may go on after
    [:before] in any way. *)
Theorem is_icon_match_iff (selector : string) :
  is_icon_match selector = true <->
  exists name rest,
    one_line name = true /\ selector = "." ++ name ++ ":before" ++ rest.
Proof.
  unfold is_icon_match, match_here. split.
  - destruct selector as [|c s]; [discriminate|].
    destruct (Ascii.eqb_spec c ".") as [->|]; [|discriminate].
    destruct (last_before s) as [j|] eqn:E; [|discriminate].
    intros _. apply last_before_Some in E as [H1 H2].
    apply PyStrFacts.prefix_split in H2.
    exists (take j s), (drop 7 (drop j s)). split; [exact H1|].
    change (String.length ":before") with 7%nat in H2.
    change ("." ++ take j s ++ ":before" ++ drop 7 (drop j s))
      with (String "." (take j s ++ ":before" ++ drop 7 (drop j s))).
    now rewrite <- H2, take_drop.
  - intros (name & rest & Hn & ->).
    change ("." ++ name ++ ":before" ++ rest)
      with (String "." (name ++ ":before" ++ rest)).
    change (Ascii.eqb "." ".") with true. cbv iota.
    pose proof (last_before_finds name rest Hn) as H.
    now destruct (last_before (name ++ ":before" ++ rest)).
Qed.

Lemma closes_at_quote (body : string) (q : ascii) :
  one_line body = true -> is_quote q = true ->
  closes (body ++ String q "") = true.
Proof.
  intros Hb Hq. induction body as [|c body IH].
  - simpl. now rewrite Hq.
  - cbn [one_line] in Hb. apply andb_prop in Hb as [Hc Hb].
    cbn [append closes]. rewrite Hc, (IH Hb). apply orb_true_r.
Qed.

Lemma strip_ends_quoted (body : string) (q q' : ascii) :
  strip_ends (String q (body ++ String q' "")) = body.
Proof.
  unfold strip_ends. cbn [String.length drop].
  rewrite PyStrFacts.length_app. cbn [String.length].
  replace (S (String.length body + 1) - 2)%nat with (String.length body) by lia.
  apply PyStrFacts.take_app.
Qed.

(** A quoted value gives up its quotes and the character after the opening
    quote. *)
Lemma content_digits_quoted (q q' c : ascii) (h : string) :
  is_quote q = true -> is_quote q' = true ->
  one_line (String c h) = true ->
  content_digits (String q (String c h ++ String q' "")) = h.
Proof.
  intros Hq Hq' Hl. unfold content_digits.
  assert (E : quoted (String q (String c h ++ String q' "")) = true).
  { cbn [quoted]. now rewrite Hq, closes_at_quote. }
  rewrite E, strip_ends_quoted. reflexivity.
Qed.

End ReExtras.

Section LoadCssRoundTrip.

Variable int16 : string -> option Z.

(** X9. A stylesheet of one icon rule [.name:before] whose [content] value
    is a quoted text, one character (the escape mark, whatever it is) and
    the hexadecimal digits of [n], loads with [keep_prefix] as the table of
    the one entry [name -> n]. *)
Theorem load_css_quoted_escape (name h : string) (q q' c : ascii) (n : Z) :
  Re.one_line name = true ->
  Re.is_quote q = true -> Re.is_quote q' = true ->
  Re.one_line (String c h) = true ->
  int16 h = Some n -> 0 <= n <= 1114111 ->
  load_css int16 true
    [RuleSet ("." ++ name ++ ":before")
       [Decl "content" (String q (String c h ++ String q' ""))]]
  = Ok ([(name, n)], name ++ ":before").
Proof.
  intros Hname Hq Hq' Hl Hh Hn.
  pose proof (ReExtras.content_digits_quoted q q' c h Hq Hq' Hl) as Hd.
  unfold content_digits in Hd.
  unfold load_css. cbn [load_rules load_rule].
  rewrite (ReFacts.is_icon_match_name _ Hname).
  rewrite (ReFacts.is_icon_finditer_name _ Hname).
  cbn [negb store_matches store_content decl_name decl_value].
  change (String.eqb "content" "content") with true. cbv iota.
  rewrite Hd. unfold py_int16. rewrite Hh. cbn [rbind].
  unfold unichr.
  replace ((0 <=? n) && (n <=? 1114111)) with true
    by (symmetry; apply andb_true_intro; split; apply Z.leb_le; lia).
  reflexivity.
Qed.

End LoadCssRoundTrip.

(** * Further properties of the compositor *)

Section ScaleFontExtras.

Variable truetype_error : string -> Z -> option py_exn.
Variable textsize : uchar -> font -> Z * Z.
Variable getbbox : image -> option box.
Variable self : IconFont.

Local Abbreviation auto_loop' := (auto_loop truetype_error textsize self).
Local Abbreviation scale_font' := (scale_font truetype_error textsize getbbox self).

(** What the loop does outside the program, and what it returns. *)
Lemma auto_loop_appends (fuel : nat) :
  forall icon size iteration factor fnt,
    appends (auto_loop' fuel icon size iteration factor fnt)
      (fun r evs =>
         files_written evs = [] /\ dirs_made evs = [] /\
         Forall (fun p => fst p = ttf_file self) (fonts_loaded evs) /\
         forall f wd ht, r = Ok (f, wd, ht) ->
           (exists c, Dict.get (css_icons self) icon = Some c /\
                      textsize c f = (wd, ht)) /\
           (f = fnt \/ font_file f = ttf_file self)).
Proof.
  induction fuel as [|fuel IH]; intros icon size iteration factor fnt w r w' H;
    [discriminate|].
  rewrite auto_loop_S in H.
  cbv beta iota zeta delta [bind icon_char draw_textsize emit ret raise lift
                            ImageFont_truetype] in H.
  destruct (Dict.get (css_icons self) icon) as [c|] eqn:Ec.
  2:{ injection H as <- <-. exists []. rewrite app_nil_r.
      repeat split; try constructor; discriminate. }
  destruct (textsize c fnt) as [wd0 ht0] eqn:Ets. cbv beta iota in H.
  destruct (Z.max wd0 ht0 >? size).
  - destruct (PyNum.int_truediv (size * size) (Z.max wd0 ht0)) as [q|e].
    2:{ injection H as <- <-. exists [EvTextsize c fnt].
        repeat split; try constructor; discriminate. }
    destruct (PyNum.mul (PyNum.PFloat q) factor) as [x|e].
    2:{ injection H as <- <-. exists [EvTextsize c fnt].
        repeat split; try constructor; discriminate. }
    destruct (PyNum.to_int x) as [px|e].
    2:{ injection H as <- <-. exists [EvTextsize c fnt].
        repeat split; try constructor; discriminate. }
    destruct (truetype_error (ttf_file self) px) as [e|].
    { injection H as <- <-.
      exists [EvTextsize c fnt; EvTruetype (ttf_file self) px].
      rewrite <- app_assoc. repeat split; try discriminate.
      simpl. repeat constructor. }
    assert (Hrec : exists factor',
      auto_loop' fuel icon size (iteration + 1) factor'
        (Font (ttf_file self) px)
        ((w ++ [EvTextsize c fnt]) ++ [EvTruetype (ttf_file self) px])%list
      = Some (r, w')
      \/ (exists e, r = Raise e /\
          w' = ((w ++ [EvTextsize c fnt])
                ++ [EvTruetype (ttf_file self) px])%list)).
    { destruct ((iteration + 1) mod 2 =? 0).
      - destruct (PyNum.mul factor (PyNum.PFloat PyNum.f_0_99)) as [f1|e].
        + exists f1. now left.
        + exists factor. right. exists e. now injection H as <- <-.
      - exists factor. now left. }
    clear H. destruct Hrec as [factor' [H|(e & -> & ->)]].
    + apply IH in H as (evs & -> & Hf & Hd & Hl & Hr).
      exists ([EvTextsize c fnt; EvTruetype (ttf_file self) px] ++ evs)%list.
      split; [now rewrite <- !app_assoc|].
      rewrite files_written_app, dirs_made_app, fonts_loaded_app, Hf, Hd.
      repeat split.
      * simpl. constructor; [reflexivity | exact Hl].
      * destruct (proj1 (Hr f wd ht H)) as (c1 & Hc1 & Ht1).
        exists c1. split; [congruence | exact Ht1].
      * destruct (Hr f wd ht H) as [_ [->|Hs]]; right; [reflexivity | exact Hs].
    + exists [EvTextsize c fnt; EvTruetype (ttf_file self) px].
      rewrite <- app_assoc. repeat split; try discriminate.
      simpl. repeat constructor.
  - injection H as <- <-. exists [EvTextsize c fnt].
    repeat split; try constructor.
    + injection H as <- <- <-. exists c. now split.
    + now injection H as <- _ _.
Qed.

(** The whole of [scale_font], for either kind of scale. *)
Lemma scale_font_appends (fuel : nat) (ttf icon : string) (size : Z)
    (scale : scale_arg) :
  appends (scale_font' fuel ttf icon size scale)
    (fun r evs =>
       files_written evs = [] /\ dirs_made evs = [] /\
       (fonts_loaded evs = [] \/
        exists px rest,
          fonts_loaded evs = (ttf, px) :: rest /\
          Forall (fun p => fst p = ttf_file self) rest) /\
       forall f wd ht bbox, r = Ok (f, wd, ht, bbox) ->
         (exists c, Dict.get (css_icons self) icon = Some c /\
                    textsize c f = (wd, ht)) /\
         bbox = getbbox (New "RGBA" size size (RGBA 0 0 0 0))).
Proof.
  intros w r w' H. unfold scale_font in H.
  cbv beta iota zeta delta [bind Image_new icon_char draw_textsize emit ret
                            raise lift ImageFont_truetype] in H.
  destruct ((size <? 0) || (size <? 0)).
  { injection H as <- <-. exists []. rewrite app_nil_r.
    repeat split; try discriminate. now left. }
  destruct (pixel_size size _) as [px|e].
  2:{ injection H as <- <-. exists []. rewrite app_nil_r.
      repeat split; try discriminate. now left. }
  destruct (truetype_error ttf px) as [e|].
  { injection H as <- <-. exists [EvTruetype ttf px].
    repeat split; try discriminate. right. exists px, []. now split. }
  destruct (Dict.get (css_icons self) icon) as [c|] eqn:Ec.
  2:{ injection H as <- <-. exists [EvTruetype ttf px].
      repeat split; try discriminate. right. exists px, []. now split. }
  destruct (textsize c (Font ttf px)) as [wd0 ht0] eqn:Ets. cbv beta iota in H.
  destruct scale as [|f0].
  - destruct (auto_loop' fuel icon size 0 (PyNum.PInt 1) (Font ttf px)
                ((w ++ [EvTruetype ttf px])
                 ++ [EvTextsize c (Font ttf px)])%list)
      as [[r1 w1]|] eqn:El; [|discriminate].
    apply auto_loop_appends in El as (evs & -> & Hf & Hd & Hl & Hr).
    exists ([EvTruetype ttf px; EvTextsize c (Font ttf px)] ++ evs)%list.
    split.
    { destruct r1 as [[[f1 wd1] ht1]|e]; injection H as <- <-;
        now rewrite <- !app_assoc. }
    rewrite files_written_app, dirs_made_app, fonts_loaded_app, Hf, Hd.
    repeat split.
    + right. exists px, (fonts_loaded evs). now split.
    + destruct r1 as [[[f1 wd1] ht1]|e]; [|now injection H as <- _].
      injection H as <- _. injection H0 as <- <- <- _.
      destruct (proj1 (Hr f1 wd1 ht1 eq_refl)) as (c1 & Hc1 & Ht1).
      exists c1. split; [congruence | exact Ht1].
    + destruct r1 as [[[f1 wd1] ht1]|e]; [|now injection H as <- _].
      injection H as <- _. now injection H0 as _ _ _ <-.
  - injection H as <- <-.
    exists [EvTruetype ttf px; EvTextsize c (Font ttf px)].
    split; [now rewrite <- app_assoc|].
    repeat split.
    + right. exists px, []. now split.
    + injection H as <- <- <- _. exists c. now split.
    + now injection H as _ _ _ <-.
Qed.

(** C7. With [scale='auto'], whenever [scale_font] returns, the width and
    the height it returns are the measure of the glyph of [icon] with the
    font it returns, and they satisfy [max(width, height) <= size]. *)
Theorem scale_font_auto_fits (fuel : nat) (ttf icon : string) (size : Z)
    (w w' : world) (fnt : font) (width height : Z) (bbox : option box) :
  scale_font' fuel ttf icon size Auto w
  = Some (Ok (fnt, width, height, bbox), w') ->
  (exists c, Dict.get (css_icons self) icon = Some c /\
             textsize c fnt = (width, height)) /\
  Z.max width height <= size.
Proof.
  intros H. split.
  - apply scale_font_appends in H as (evs & _ & _ & _ & _ & Hr).
    now apply (Hr fnt width height bbox).
  - unfold scale_font in H.
    apply bind_Ok in H as (im & w1 & _ & H).
    apply bind_Ok in H as (px & w2 & _ & H).
    apply bind_Ok in H as (fnt0 & w3 & _ & H).
    apply bind_Ok in H as (c & w4 & _ & H).
    apply bind_Ok in H as ([wd ht] & w5 & _ & H).
    apply bind_Ok in H as ([[fnt1 wd1] ht1] & w6 & Hloop & H).
    apply ret_Ok in H as [[= <- <- <- _] _].
    eapply auto_loop_result. exact Hloop.
Qed.

(** X10. The width and the height that [scale_font] returns are the measure
    of the glyph of [icon] with the font it returns, for ['auto'] and for a
    fixed scale alike. *)
Theorem scale_font_measures_returned_font (fuel : nat) (ttf icon : string)
    (size : Z) (scale : scale_arg) (w w' : world)
    (fnt : font) (width height : Z) (bbox : option box) :
  scale_font' fuel ttf icon size scale w
  = Some (Ok (fnt, width, height, bbox), w') ->
  exists c, Dict.get (css_icons self) icon = Some c /\
            textsize c fnt = (width, height).
Proof.
  intros H. apply scale_font_appends in H as (evs & _ & _ & _ & _ & Hr).
  now apply (Hr fnt width height bbox).
Qed.

(** X11. The bounding box that [scale_font] returns is that of the canvas
    as [Image.new] made it: nothing is drawn on it, so the box depends on
    the size alone, not on the icon, the scale or the font. *)
Theorem scale_font_bbox_of_blank_canvas (fuel : nat) (ttf icon : string)
    (size : Z) (scale : scale_arg) (w w' : world)
    (fnt : font) (width height : Z) (bbox : option box) :
  scale_font' fuel ttf icon size scale w
  = Some (Ok (fnt, width, height, bbox), w') ->
  bbox = getbbox (New "RGBA" size size (RGBA 0 0 0 0)).
Proof.
  intros H. apply scale_font_appends in H as (evs & _ & _ & _ & _ & Hr).
  now apply (Hr fnt width height bbox).
Qed.

(** X12. [scale_font] loads the file [ttf] it is given once, first; every
    font it loads after that, in the passes of the loop, comes from
    [self.ttf_file].  It makes no directory and writes no file. *)
Theorem scale_font_rerenders_from_ttf_file (fuel : nat) (ttf icon : string)
    (size : Z) (scale : scale_arg) (w w' : world)
    (r : result (font * Z * Z * option box)) :
  scale_font' fuel ttf icon size scale w = Some (r, w') ->
  exists evs,
    w' = (w ++ evs)%list /\
    files_written evs = [] /\ dirs_made evs = [] /\
    (fonts_loaded evs = [] \/
     exists px rest,
       fonts_loaded evs = (ttf, px) :: rest /\
       Forall (fun p => fst p = ttf_file self) rest).
Proof.
  intros H. apply scale_font_appends in H as (evs & -> & Hf & Hd & Hl & _).
  now exists evs.
Qed.

(** X13. With ['auto'], a glyph that fits at the pixel size [size] is
    returned at once: one font is loaded, at [size], the glyph is measured
    twice with it, and no pass re-renders. *)
Theorem scale_font_auto_fits_at_once (fuel : nat) (ttf icon : string)
    (size : Z) (w : world) (c : uchar) (width height : Z) :
  0 <= size ->
  truetype_error ttf size = None ->
  Dict.get (css_icons self) icon = Some c ->
  textsize c (Font ttf size) = (width, height) ->
  Z.max width height <= size ->
  scale_font' (S fuel) ttf icon size Auto w
  = Some (Ok (Font ttf size, width, height,
              getbbox (New "RGBA" size size (RGBA 0 0 0 0))),
          (w ++ [EvTruetype ttf size; EvTextsize c (Font ttf size);
                 EvTextsize c (Font ttf size)])%list).
Proof.
  intros Hs Hload Hc Hts Hfit. unfold scale_font.
  cbv beta iota zeta delta [bind Image_new icon_char draw_textsize emit ret
                            raise lift ImageFont_truetype pixel_size
                            PyNum.mul PyNum.to_int rbind].
  replace (size <? 0) with false by (symmetry; apply Z.ltb_ge; lia).
  cbn [orb]. rewrite Z.mul_1_r, Hload, Hc, Hts. cbv beta iota.
  rewrite auto_loop_S.
  cbv beta iota zeta delta [bind icon_char draw_textsize emit ret].
  rewrite Hc, Hts. cbv beta iota.
  replace (Z.max width height >? size) with false
    by (symmetry; rewrite Z.gtb_ltb; apply Z.ltb_ge; lia).
  now rewrite <- !app_assoc.
Qed.

(** X14. A name that the table does not have is found out only after the
    font is loaded: for a size that is not negative and a font that loads,
    [scale_font] raises [KeyError] and has loaded that one font. *)
Theorem scale_font_unknown_icon (fuel : nat) (ttf icon : string)
    (size px : Z) (scale : scale_arg) (w : world) :
  0 <= size ->
  pixel_size size (match scale with
                   | Auto => PyNum.PInt 1
                   | Fixed f => PyNum.PFloat f
                   end) = Ok px ->
  truetype_error ttf px = None ->
  Dict.get (css_icons self) icon = None ->
  scale_font' fuel ttf icon size scale w
  = Some (Raise KeyError, (w ++ [EvTruetype ttf px])%list).
Proof.
  intros Hs Hpx Hload Hc. unfold scale_font.
  cbv beta iota zeta delta [bind Image_new icon_char emit ret raise lift
                            ImageFont_truetype].
  replace (size <? 0) with false by (symmetry; apply Z.ltb_ge; lia).
  cbn [orb]. rewrite Hpx. cbv beta iota. now rewrite Hload, Hc.
Qed.

End ScaleFontExtras.

Section ExportExtras.

Variable truetype_error : string -> Z -> option py_exn.
Variable textsize : uchar -> font -> Z * Z.
Variable getbbox : image -> option box.
Variable fs : file_system.
Variable self : IconFont.

(** X15. No call of [export_icon] exports anything: with a wrapper icon or
    without one, whatever the other arguments, the call raises, and it has
    made no directory and written no file. *)
Theorem export_icon_never_writes (fuel : nat) (icon : string) (size : Z)
    (color_ : string) (scale : scale_arg) (filename : option string)
    (export_dir wrapper_icon : string) (w : world) :
  exists e evs,
    export_icon truetype_error textsize getbbox fs self
      fuel icon size color_ scale filename export_dir wrapper_icon w
    = Some (Raise e, (w ++ evs)%list) /\
    files_written evs = [] /\ dirs_made evs = [].
Proof.
  unfold export_icon.
  destruct (String.eqb wrapper_icon "");
    match goal with
    | |- context [export_icon_with_wrapper _ _ _ _ _ _ _ _ ?wi _ _ _ _ _] =>
        destruct (with_wrapper_emits truetype_error textsize getbbox
                    fs self fuel icon size wi color_ scale filename
                    export_dir w) as (r & evs & E & [e ->] & Hf & Hd & _)
    end; now exists e, evs.
Qed.

End ExportExtras.

(** ** Instances *)

Lemma load_css_prefix_is_longest_common_witness :
  (forall s, In s (icon_selectors Demo.home_user) ->
             String.prefix "icon-" s = true) /\
  (forall q, icon_selectors Demo.home_user <> [] ->
     (forall s, In s (icon_selectors Demo.home_user) ->
                String.prefix q s = true) ->
     String.prefix q "icon-" = true) /\
  (icon_selectors Demo.home_user = [] -> "icon-" = "").
Proof.
  exact (load_css_prefix_is_longest_common Hex.int16 false Demo.home_user
           [("home", 61697); ("user", 61698)] "icon-" eq_refl).
Defined.

Lemma load_css_keeps_icon_names_witness :
  In "icon-home" (Dict.keys [("icon-home", 61697); ("icon-user", 61698)])
  <-> icon_name Demo.home_user "icon-home".
Proof.
  exact (load_css_keeps_icon_names Hex.int16 Demo.home_user
           [("icon-home", 61697); ("icon-user", 61698)] "icon-" "icon-home"
           eq_refl).
Defined.

Lemma load_css_rule_order_witness :
  "icon-" = "icon-" /\
  Dict.keys [("home", 61697); ("user", 61698)]
  = Dict.keys [("home", 61697); ("user", 61698)].
Proof.
  exact (load_css_rule_order Hex.int16 false Demo.home_user
           (rev Demo.home_user)
           [("home", 61697); ("user", 61698)]
           [("home", 61697); ("user", 61698)] "icon-" "icon-"
           (Permutation_rev _) eq_refl eq_refl).
Defined.

Lemma load_css_values_are_code_points_witness : 0 <= 61697 <= 1114111.
Proof.
  exact (load_css_values_are_code_points Hex.int16 false Demo.home_user
           [("home", 61697); ("user", 61698)] "icon-" "home" 61697
           eq_refl (or_introl eq_refl)).
Defined.

Lemma load_css_unparseable_content_witness :
  exists e,
    load_css Hex.int16 false
      [RuleSet ".icon-home:before" [Decl "content" (Demo.css_quote "\f101")];
       RuleSet ".icon-user:before" [Decl "content" "none"]]
    = Raise e.
Proof.
  apply (load_css_unparseable_content Hex.int16 false _
           ".icon-user:before" [Decl "content" "none"] (Decl "content" "none")).
  - right. left. reflexivity.
  - reflexivity.
  - left. reflexivity.
  - reflexivity.
  - reflexivity.
Defined.

Lemma load_css_without_icon_rules_witness :
  load_css Hex.int16 false
    [RuleSet ".other" [Decl "content" "none"]; RuleSet "a:before" []]
  = Ok ([], "").
Proof.
  apply load_css_without_icon_rules.
  intros r [<-|[<-|[]]]; eexists _, _; split; reflexivity.
Defined.

Lemma load_css_quoted_escape_witness :
  load_css Hex.int16 true
    [RuleSet ("." ++ "icon-home" ++ ":before")
       [Decl "content"
          (String PyStr.dquote
             (String "x" "f101" ++ String PyStr.squote ""))]]
  = Ok ([("icon-home", 61697)], "icon-home" ++ ":before").
Proof.
  apply (load_css_quoted_escape Hex.int16 "icon-home" "f101"
           PyStr.dquote PyStr.squote "x" 61697);
    try reflexivity.
  lia.
Defined.

Lemma scale_font_auto_fits_witness :
  scale_font Demo.loads Demo.tall Demo.blank_bbox Demo.icon_font
    5 "icons.ttf" "home" 150 Auto []
  = Some (Ok (Font "icons.ttf" 140, 140, 150, None),
          [EvTruetype "icons.ttf" 150;
           EvTextsize 61697 (Font "icons.ttf" 150);
           EvTextsize 61697 (Font "icons.ttf" 150);
           EvTruetype "icons.ttf" 140;
           EvTextsize 61697 (Font "icons.ttf" 140)]) /\
  (exists c, Dict.get (css_icons Demo.icon_font) "home" = Some c /\
             Demo.tall c (Font "icons.ttf" 140) = (140, 150)) /\
  Z.max 140 150 <= 150.
Proof.
  split; [reflexivity|].
  exact (scale_font_auto_fits Demo.loads Demo.tall Demo.blank_bbox
           Demo.icon_font 5 "icons.ttf" "home" 150 []
           [EvTruetype "icons.ttf" 150;
            EvTextsize 61697 (Font "icons.ttf" 150);
            EvTextsize 61697 (Font "icons.ttf" 150);
            EvTruetype "icons.ttf" 140;
            EvTextsize 61697 (Font "icons.ttf" 140)]
           (Font "icons.ttf" 140) 140 150 None eq_refl).
Defined.

Lemma scale_font_measures_returned_font_witness :
  exists c, Dict.get (css_icons Demo.icon_font) "home" = Some c /\
            Demo.tall c (Font "icons.ttf" 140) = (140, 150).
Proof.
  exact (scale_font_measures_returned_font Demo.loads Demo.tall
           Demo.blank_bbox Demo.icon_font 5 "icons.ttf" "home" 150 Auto []
           _ _ _ _ _ eq_refl).
Defined.

Lemma scale_font_bbox_of_blank_canvas_witness :
  Some (10, 10, 140, 140)
  = Demo.some_bbox (New "RGBA" 150 150 (RGBA 0 0 0 0)).
Proof.
  exact (scale_font_bbox_of_blank_canvas Demo.loads Demo.tall Demo.some_bbox
           Demo.icon_font 5 "icons.ttf" "home" 150 Auto []
           _ _ _ _ _ eq_refl).
Defined.

Lemma scale_font_rerenders_from_ttf_file_witness :
  exists evs,
    [EvTruetype "other.ttf" 150; EvTextsize 61697 (Font "other.ttf" 150);
     EvTextsize 61697 (Font "other.ttf" 150); EvTruetype "icons.ttf" 140;
     EvTextsize 61697 (Font "icons.ttf" 140)]
    = ([] ++ evs)%list /\
    files_written evs = [] /\ dirs_made evs = [] /\
    (fonts_loaded evs = [] \/
     exists px rest,
       fonts_loaded evs = ("other.ttf", px) :: rest /\
       Forall (fun p => fst p = ttf_file Demo.icon_font) rest).
Proof.
  exact (scale_font_rerenders_from_ttf_file Demo.loads Demo.tall
           Demo.blank_bbox Demo.icon_font 5 "other.ttf" "home" 150 Auto []
           _ _ eq_refl).
Defined.

Lemma scale_font_auto_fits_at_once_witness :
  scale_font Demo.loads Demo.stuck Demo.blank_bbox Demo.icon_font
    1 "icons.ttf" "home" 151 Auto []
  = Some (Ok (Font "icons.ttf" 151, 151, 151,
              Demo.blank_bbox (New "RGBA" 151 151 (RGBA 0 0 0 0))),
          ([] ++ [EvTruetype "icons.ttf" 151;
                  EvTextsize 61697 (Font "icons.ttf" 151);
                  EvTextsize 61697 (Font "icons.ttf" 151)])%list).
Proof.
  apply (scale_font_auto_fits_at_once Demo.loads Demo.stuck Demo.blank_bbox
           Demo.icon_font 0 "icons.ttf" "home" 151 [] 61697 151 151);
    try reflexivity; simpl; lia.
Defined.

Lemma scale_font_unknown_icon_witness :
  scale_font Demo.loads Demo.tall Demo.blank_bbox Demo.icon_font
    0 "icons.ttf" "missing" 150 Auto []
  = Some (Raise KeyError, ([] ++ [EvTruetype "icons.ttf" 150])%list).
Proof.
  apply (scale_font_unknown_icon Demo.loads Demo.tall Demo.blank_bbox
           Demo.icon_font 0 "icons.ttf" "missing" 150 150 Auto []);
    try reflexivity.
  lia.
Defined.
